(** * Golf launch monitor viewer: a shallow embedding of [View_FS_Golf_Lesson.py]

    The script is a Streamlit page: it lists the lesson folders next to the
    script, loads the first CSV of the chosen folder through a memoised
    loader, shows a projection of the table, and for one chosen row shows a
    grid of metrics and the radar video of the shot.

    The embedding keeps the shape of the script.  The file system is a tree,
    a dataframe is a header, an index and a list of rows, the Streamlit calls
    append to an output log, and Python exceptions are a result of the
    computation.

    What lies outside the script is modelled by what the script sees of it:
    - a file is known by the frame [pd.read_csv] parses from it;
    - the user is known by the positions picked in the two select boxes;
    - [st.cache_data] is a store from the argument of the call to its result;
    - paths are POSIX paths, absolute from the root of the tree;
    - the tree holds files and directories that the process may read and
      search; there are no symbolic links;
    - the text pandas prints for a column of several rows is a parameter
      ([series_text]) of the page. *)

From Stdlib Require Import Strings.Ascii.
From stdpp Require Import gmap strings list pretty.

Open Scope string_scope.
Open Scope list_scope.
Open Scope nat_scope.

(** ** Cell values

    [pd.read_csv] infers a type per column: 64-bit integers, signed or
    unsigned, floats, or Python objects (text, and integers too large for 64
    bits). *)

Inductive dtype := Int64 | UInt64 | Float64 | Object.

#[global] Instance dtype_eq_dec : EqDecision dtype.
Proof. solve_decision. Defined.

(** The script never computes on a cell, it only prints it, so a float is
    carried by the text Python prints for it, and so is a truth value (as a
    [VStr]).  [VNaN] is the value of an empty field.  [VColumn] is what
    stands in a row selection that holds several rows: a column of cells,
    known by its type and by the text pandas prints for it. *)
Inductive value :=
| VStr (s : string)
| VInt (z : Z)
| VFloat (text : string)
| VNaN
| VColumn (kind : dtype) (text : string).

#[global] Instance value_eq_dec : EqDecision value.
Proof. solve_decision. Defined.

(** What [f"{v}"] prints. *)
Definition str (v : value) : string :=
  match v with
  | VStr s => s
  | VInt z => pretty z
  | VFloat text => text
  | VNaN => "nan"
  | VColumn _ text => text
  end.

(** *** The text of an integer held as a float

    pandas stores the integers of a row as floats when the columns of the
    frame are numeric but not all of one integer type.  What is printed
    then is Python's [repr] of the nearest double. *)

(** The double nearest to a non-negative integer, ties to even. *)
Definition to_double (n : Z) : Z :=
  let sh := (Z.log2 n + 1 - 53)%Z in
  if (sh <=? 0)%Z then n
  else
    let q := Z.shiftr n sh in
    let rem := (n - Z.shiftl q sh)%Z in
    let half := Z.shiftl 1 (sh - 1) in
    let q' := if (half <? rem)%Z || ((rem =? half)%Z && Z.odd q)
              then (q + 1)%Z else q in
    Z.shiftl q' sh.

(** Whether the decimal [c] reads back as the double [x], for [2^53 <= x]:
    it lies between the midpoints to the neighbours of [x], the midpoints
    included when the mantissa of [x] is even. *)
Definition reads_as (x c : Z) : bool :=
  let ulp := Z.shiftl 1 (Z.log2 x + 1 - 53) in
  let m := (x / ulp)%Z in
  let below := if (m =? 2 ^ 52)%Z then (ulp / 2)%Z else ulp in
  if Z.even m
  then (2 * x - below <=? 2 * c)%Z && (2 * c <=? 2 * x + ulp)%Z
  else (2 * x - below <? 2 * c)%Z && (2 * c <? 2 * x + ulp)%Z.

(** The shortest decimal that reads back as [x]: a multiple of [10^k] for
    the largest [k] that has one, the nearer of the two around [x]. *)
Fixpoint shortest (x : Z) (k : nat) : Z :=
  let scale := (10 ^ Z.of_nat k)%Z in
  let down := (x / scale * scale)%Z in
  let up := (down + scale)%Z in
  let near := if (x - down <=? up - x)%Z then down else up in
  let far := if (x - down <=? up - x)%Z then up else down in
  if reads_as x near then near
  else if reads_as x far then far
  else match k with 0 => x | S k' => shortest x k' end.

Fixpoint strip_zeros (fuel : nat) (d : Z) : Z :=
  match fuel with
  | 0 => d
  | S fuel' =>
      if (0 <? d)%Z && (d mod 10 =? 0)%Z then strip_zeros fuel' (d / 10)%Z
      else d
  end.

(** [repr] of a float that holds the non-negative integer [x]: all the
    digits below [10^16], the shortest digits and an exponent from there. *)
Definition float_digits (x : Z) : string :=
  if (x <? 10 ^ 16)%Z then pretty x +:+ ".0"
  else
    let d := shortest x (String.length (pretty x)) in
    match pretty (strip_zeros (String.length (pretty d)) d) with
    | String c EmptyString => String c EmptyString
    | String c rest => String c ("." +:+ rest)
    | EmptyString => EmptyString
    end +:+ "e+" +:+ pretty (String.length (pretty d) - 1).

(** [repr(float(z))] *)
Definition float_text (z : Z) : string :=
  if (z <? 0)%Z then "-" +:+ float_digits (to_double (- z))
  else float_digits (to_double z).

(** ** Exceptions and results *)

Inductive exn :=
| KeyError (labels : list string)
| TypeError (what : string)
| AttributeError (what : string)
| FileNotFoundError (where_ : string)
| NotADirectoryError (where_ : string)
| OSError (what : string)
| ReadError (where_ : string)
| StreamlitDataframeConversionError
| MediaFileStorageError (where_ : string).

Inductive result (A : Type) :=
| Ok (a : A)
| Raise (e : exn).
Arguments Ok {A} a.
Arguments Raise {A} e.

Definition is_ok {A} (r : result A) : bool :=
  match r with Ok _ => true | Raise _ => false end.

#[global] Instance result_ret : MRet result := λ A a, Ok a.
#[global] Instance result_bind : MBind result := λ A B f r,
  match r with Ok a => f a | Raise e => Raise e end.

(** ** Paths ([pathlib], POSIX flavour)

    A path is the list of its components below the root. *)

Definition path := list string.

(** Splitting a string at ["/"]. *)
Fixpoint split_slash (cur : string) (s : string) : list string :=
  match s with
  | EmptyString => [cur]
  | String c rest =>
      if Ascii.eqb c "/"%char then cur :: split_slash EmptyString rest
      else split_slash (cur +:+ String c EmptyString) rest
  end.

(** The components [pathlib] keeps: empty ones and ["."] are dropped,
    [".."] stays.  A text that starts with exactly two slashes has a root
    of its own in [pathlib], which a [path] does not record; the
    statements about the text of a path built from a cell leave such
    cells out ([double_root]). *)
Definition parts (s : string) : list string :=
  filter (λ c, c ≠ EmptyString ∧ c ≠ ".") (split_slash EmptyString s).

Definition is_absolute (s : string) : bool :=
  match s with
  | String c _ => Ascii.eqb c "/"%char
  | EmptyString => false
  end.

(** [p / s]: an absolute right operand replaces the left one. *)
Definition joinpath (p : path) (s : string) : path :=
  if is_absolute s then parts s else p ++ parts s.

(** [p.name] *)
Definition name (p : path) : string := default EmptyString (last p).

(** [str(p)] *)
Definition path_str (p : path) : string :=
  match p with
  | [] => "/"
  | _ => String.concat EmptyString (fmap (λ c, "/" +:+ c) p)
  end.

(** The length of a text in the bytes the file system sees (UTF-8): one
    byte for a character below 128, two for the others. *)
Fixpoint byte_length (s : string) : nat :=
  match s with
  | EmptyString => 0
  | String c rest =>
      (if Nat.ltb (nat_of_ascii c) 128 then 1 else 2) + byte_length rest
  end.

(** ** Dataframes

    The header, the index and the rows in file order.  The index of a frame
    read by [pd.read_csv] is the position of the row ([row_labels] is [None]),
    unless the records have one field more than the header: then the first
    field of every record is the label of its row, and labels may repeat. *)

Record DataFrame := mkDataFrame {
  columns : list string;
  row_labels : option (list value);
  data : list (list value)
}.

(** A cell or label of a frame as it is read: anything but a column. *)
Definition is_scalar (v : value) : Prop :=
  match v with
  | VColumn _ _ => False
  | _ => True
  end.

#[global] Instance is_scalar_dec v : Decision (is_scalar v).
Proof. destruct v; apply _. Defined.

(** What the parser guarantees: one cell per column in every row (short
    records are padded), no two columns of the same name (duplicates are
    renamed), one label per row, and scalars as cells and labels.  (When
    the records have several fields more than the header, the label is the
    tuple of the first ones, a [VStr] of its text.) *)
Definition wf_frame (df : DataFrame) : Prop :=
  NoDup (columns df) ∧
  Forall (λ r, length r = length (columns df)) (data df) ∧
  from_option (λ l, length l = length (data df) ∧ Forall is_scalar l) True
    (row_labels df) ∧
  Forall (Forall is_scalar) (data df).

#[global] Instance wf_frame_dec df : Decision (wf_frame df).
Proof. unfold wf_frame. destruct (row_labels df); apply _. Defined.

(** The label of the row at position [j]. *)
Definition label_at (df : DataFrame) (j : nat) : value :=
  match row_labels df with
  | Some l => default (VInt (Z.of_nat j)) (l !! j)
  | None => VInt (Z.of_nat j)
  end.

(** [df.index.tolist()] *)
Definition index (df : DataFrame) : list value :=
  imap (λ j _, label_at df j) (data df).

(** A row as [df.loc[i]] gives it: the cells under their column labels. *)
Definition Series := list (string * value).

Fixpoint assoc {A} (k : string) (l : list (string * A)) : option A :=
  match l with
  | [] => None
  | (k', a) :: l' => if String.eqb k k' then Some a else assoc k l'
  end.

(** [row[col]] *)
Definition getitem (row : Series) (col : string) : result value :=
  match assoc col row with
  | Some v => Ok v
  | None => Raise (KeyError [col])
  end.

(** [row.get(col, dflt)] *)
Definition get (row : Series) (col : string) (dflt : value) : value :=
  match assoc col row with
  | Some v => v
  | None => dflt
  end.

(** The cells of a column, in row order. *)
Definition column_cells (df : DataFrame) (c : string) : list value :=
  (λ r, get (zip (columns df) r) c VNaN) <$> data df.

(** [df[cols]]: every label must be a column; the rows, their order and
    their labels are kept. *)
Definition getitem_cols (df : DataFrame) (cols : list string) : result DataFrame :=
  match filter (λ c, c ∉ columns df) cols with
  | [] =>
      Ok {| columns := cols;
            row_labels := row_labels df;
            data := fmap (λ r, fmap (λ c, get (zip (columns df) r) c VNaN) cols)
                        (data df) |}
  | missing => Raise (KeyError missing)
  end.

(** *** The type of a column and of a row *)

Definition in_int64 (z : Z) : bool := (- 2 ^ 63 <=? z)%Z && (z <? 2 ^ 63)%Z.
Definition in_uint64 (z : Z) : bool := (0 <=? z)%Z && (z <? 2 ^ 64)%Z.

(** Integers that fit are stored as such, signed if they can be; floats
    and empty fields make a float column; anything else a column of
    objects. *)
Definition column_dtype (cells : list value) : dtype :=
  if forallb (λ v, match v with VInt z => in_int64 z | _ => false end) cells
  then Int64
  else if forallb (λ v, match v with VInt z => in_uint64 z | _ => false end) cells
  then UInt64
  else if forallb (λ v, match v with VFloat _ | VNaN => true | _ => false end) cells
  then Float64
  else Object.

(** The type that holds cells of all the given types: their own when they
    agree, objects when one of them is, floats otherwise. *)
Definition common_dtype (l : list dtype) : dtype :=
  if forallb (λ t, bool_decide (t = Int64)) l then Int64
  else if forallb (λ t, bool_decide (t = UInt64)) l then UInt64
  else if existsb (λ t, bool_decide (t = Object)) l then Object
  else Float64.

(** The type of a single row taken out of the frame. *)
Definition row_dtype (df : DataFrame) : dtype :=
  common_dtype ((λ c, column_dtype (column_cells df c)) <$> columns df).

(** A cell as a row of type [t] holds it. *)
Definition upcast (t : dtype) (v : value) : value :=
  match t, v with
  | Float64, VInt z => VFloat (float_text z)
  | _, _ => v
  end.

(** ** The file system *)

(** A file is known by what [pd.read_csv(_, encoding='windows-1252')] makes
    of it: a table, or a parse failure. *)
#[warnings="-register-all"]
Inductive node :=
| File (parsed : option DataFrame)
| Dir (entries : list (string * node)).

Definition is_dir (n : node) : bool :=
  match n with Dir _ => true | File _ => false end.

(** Walking a path from the root; [above] holds the directories passed on
    the way down, nearest first, for [".."]. *)
Fixpoint walk (above : list node) (cur : node) (p : path) : option node :=
  match p with
  | [] => Some cur
  | c :: p' =>
      if String.eqb c ".." then
        match cur, above with
        | File _, _ => None
        | Dir _, [] => walk [] cur p'
        | Dir _, up :: above' => walk above' up p'
        end
      else
        match cur with
        | File _ => None
        | Dir es =>
            match assoc c es with
            | Some n => walk (cur :: above) n p'
            | None => None
            end
        end
  end.

Definition resolve (fs : node) (p : path) : option node := walk [] fs p.

(** Whether the tree holds an entry at [p]. *)
Definition path_exists (fs : node) (p : path) : bool :=
  bool_decide (is_Some (resolve fs p)).

(** What the system call behind [p.exists()] answers.  A name of more than
    255 bytes is refused when it is looked up in a directory; before that
    a missing entry or a file on the way ends the walk. *)
Inductive lookup_result :=
| Found (n : node)
| NoEntry
| NotDir
| NameTooLong.

Fixpoint stat (above : list node) (cur : node) (p : path) : lookup_result :=
  match p with
  | [] => Found cur
  | c :: p' =>
      match cur with
      | File _ => NotDir
      | Dir es =>
          if String.eqb c ".." then
            match above with
            | [] => stat [] cur p'
            | up :: above' => stat above' up p'
            end
          else if Nat.ltb 255 (byte_length c) then NameTooLong
          else
            match assoc c es with
            | Some n => stat (cur :: above) n p'
            | None => NoEntry
            end
      end
  end.

(** [p.exists()]: [pathlib] answers [False] to a missing entry and to a
    file on the way, and lets the other errors through; a path of 4096
    bytes or more is refused at once. *)
Definition exists_ (fs : node) (p : path) : result bool :=
  if Nat.leb 4096 (byte_length (path_str p))
  then Raise (OSError "File name too long")
  else
    match stat [] fs p with
    | Found _ => Ok true
    | NoEntry | NotDir => Ok false
    | NameTooLong => Raise (OSError "File name too long")
    end.

(** The path of an entry of directory [p]. *)
Definition child (p : path) (entry : string) : path := p ++ [entry].

(** [p.iterdir()]: the entries in directory order. *)
Definition iterdir (fs : node) (p : path) : result (list (path * node)) :=
  match resolve fs p with
  | Some (Dir es) => Ok (fmap (λ e, (child p e.1, e.2)) es)
  | Some (File _) => Raise (NotADirectoryError (path_str p))
  | None =>
      match stat [] fs p with
      | NotDir => Raise (NotADirectoryError (path_str p))
      | NameTooLong => Raise (OSError "File name too long")
      | _ => Raise (FileNotFoundError (path_str p))
      end
  end.

(** [fnmatch(s, '*.csv')] *)
Definition is_csv_name (s : string) : bool :=
  String.prefix (String.rev ".csv") (String.rev s).

(** [p.glob('*.csv')]: nothing when [p] is not a directory. *)
Definition glob_csv (fs : node) (p : path) : list path :=
  match resolve fs p with
  | Some (Dir es) => fmap (λ e, child p e.1) (filter (λ e, is_csv_name e.1) es)
  | _ => []
  end.

(** [p / x] for a Python object [x]; [None] is Python's [None]. *)
Definition truediv (p : path) (x : option value) : result path :=
  match x with
  | Some (VStr s) => Ok (joinpath p s)
  | _ => Raise (TypeError "unsupported operand type(s) for /")
  end.

(** ** Lesson discovery (lines 10-12) *)

Definition excluded : gset string := {[ "venv"; ".venv" ]}.

Definition find_lessons (fs : node) (base_dir : path) : result (list path) :=
  match iterdir fs base_dir with
  | Ok ds =>
      Ok (fmap fst (filter (λ d, is_dir d.2 ∧ name d.1 ∉ excluded) ds))
  | Raise e => Raise e
  end.

(** ** The page: output log, loader cache, exceptions *)

Inductive container :=
| MainArea
| Sidebar
| Tab (title : string).

Inductive element :=
| Title (body : string)
| Selectbox (label : string) (options : list string)
| Error (body : string)
| Tabs (titles : list string)
| Subheader (body : string)
| Dataframe (df : DataFrame)
| Columns (n : nat)
| ColumnMarkdown (j : nat) (body : string) (unsafe_allow_html : bool)
| Video (file : string).

Record session := mkSession {
  cache : gmap path DataFrame;      (* the store of [st.cache_data] *)
  reads : list path;                (* the calls of [pd.read_csv] so far *)
  out : list (container * element)  (* what the page shows, in order *)
}.

Definition page (A : Type) : Type := session → result A * session.

#[global] Instance page_ret : MRet page := λ A a s, (Ok a, s).
#[global] Instance page_bind : MBind page := λ A B f m s,
  match m s with
  | (Ok a, s') => f a s'
  | (Raise e, s') => (Raise e, s')
  end.

Definition lift {A} (r : result A) : page A := λ s, (r, s).

(** The session after more elements are shown. *)
Definition show (l : list (container * element)) (s : session) : session :=
  {| cache := cache s; reads := reads s; out := out s ++ l |}.

Definition emit (c : container) (e : element) : page unit := λ s,
  (Ok tt, show [(c, e)] s).

(** [for x in l: body(x)] *)
Fixpoint for_each {A} (l : list A) (body : A → page unit) : page unit :=
  match l with
  | [] => mret tt
  | x :: l' => body x ≫= λ _, for_each l' body
  end.

(** *** Streamlit *)

(** The option a select box returns.  The user's choice is a position in
    the list of options: the option there when there is one, the first
    option otherwise (the default of the widget), [None] without options. *)
Definition chosen {A} (options : list A) (choice : nat) : option A :=
  match options !! choice with
  | Some x => Some x
  | None => head options
  end.

(** [st.selectbox]: every option is formatted for display, then the
    widget is shown and the chosen option is handed back. *)
Definition st_selectbox {A} (c : container) (label : string) (options : list A)
    (format_func : A → result string) (choice : nat) : page (option A) :=
  labels ← lift (mapM format_func options);
  emit c (Selectbox label labels) ≫= λ _,
  mret (chosen options choice).

(** What the conversion to Arrow takes: the integers of a column, or of
    the index, must all fit in 64 bits, signed, or the column must be one
    of unsigned integers. *)
Definition arrow_ok (cells : list value) : bool :=
  forallb (λ v, match v with VInt z => in_int64 z | _ => true end) cells
  || bool_decide (column_dtype cells = UInt64).

(** [st.dataframe]: the frame is converted, then shown. *)
Definition st_dataframe (c : container) (view : DataFrame) : page unit :=
  if forallb arrow_ok (index view :: (column_cells view <$> columns view))
  then emit c (Dataframe view)
  else lift (Raise StreamlitDataframeConversionError).

(** [st.video] on the text of a path: the file is read into the media
    store, which fails on anything but a file. *)
Definition st_video (fs : node) (c : container) (file : path) : page unit :=
  match resolve fs file with
  | Some (File _) => emit c (Video (path_str file))
  | _ => lift (Raise (MediaFileStorageError (path_str file)))
  end.

(** *** The memoised loader (lines 14-17) *)

(** The body of [load_data]; the call of [pd.read_csv] is logged. *)
Definition read_csv (fs : node) (csv_path : path) : page DataFrame := λ s,
  (match resolve fs csv_path with
   | Some (File (Some df)) => Ok df
   | _ => Raise (ReadError (path_str csv_path))
   end,
   {| cache := cache s; reads := reads s ++ [csv_path]; out := out s |}).

(** [@st.cache_data]: a stored result is returned without running the body;
    a result is stored when the body returns one. *)
Definition cache_data (body : path → page DataFrame) (key : path) : page DataFrame :=
  λ s,
  match cache s !! key with
  | Some df => (Ok df, s)
  | None =>
      match body key s with
      | (Ok df, s') =>
          (Ok df, {| cache := <[key := df]> (cache s'); reads := reads s'; out := out s' |})
      | (Raise e, s') => (Raise e, s')
      end
  end.

Definition load_data (fs : node) : path → page DataFrame := cache_data (read_csv fs).

(** ** The views *)

Definition preview_cols : list string :=
  ["Player"; "Time"; "Club"; "Club Speed [mph]"; "Shot Type"; "Carry [yds]";
   "Radar Video"].

Definition desired_metrics : list string :=
  ["Index"; "Carry [yds]"; "Total [yds]"; "Smash"; "Spin [rpm]";
   "Club Path [deg]"; "V-Plane [deg]"; "Height [ft]"; "Club Speed [mph]";
   "AOA [deg]"; "Low Point [in]"; "Club"; "Shot Type"].

Definition n_cols : nat := 8.

Definition tab_all : container := Tab "All Shots".
Definition tab_video : container := Tab "Video Player".

(** *** All shots (lines 43-45) *)

Definition shot_table_view (csv : path) (df : DataFrame) : page unit :=
  emit tab_all (Subheader ("All Shots: " +:+ name csv)) ≫= λ _,
  view ← lift (getitem_cols df preview_cols);
  st_dataframe tab_all view.

(** *** One shot (lines 47-102) *)

(** [d[k] = v] on a dict, which keeps the order of first insertion. *)
Fixpoint dict_set (k : string) (v : value) (d : list (string * value))
    : list (string * value) :=
  match d with
  | [] => [(k, v)]
  | (k', v') :: d' =>
      if String.eqb k k' then (k', v) :: d' else (k', v') :: dict_set k v d'
  end.

(** The metrics dict of the selected shot (lines 76-79). *)
Definition build_metrics (selected_idx : value) (row : Series)
    : list (string * value) :=
  foldl (λ metrics col, dict_set col (get row col (VStr "N/A")) metrics)
        [("Index", selected_idx)]
        (drop 1 desired_metrics).

(** [range(start, stop, step)] for a positive step. *)
Fixpoint range_from (fuel start stop step : nat) : list nat :=
  match fuel with
  | 0 => []
  | S fuel' =>
      if start <? stop then start :: range_from fuel' (start + step) stop step
      else []
  end.

Definition range (start stop step : nat) : list nat :=
  range_from stop start stop step.

(** [enumerate(l)] *)
Definition enumerate {A} (l : list A) : list (nat * A) := zip (seq 0 (length l)) l.

Definition markdown_str (label : string) (v : value) : string :=
  "<div style='text-align:center;'>"
  +:+ "<div style='font-size:0.8rem;color:#666;'>" +:+ label +:+ "</div>"
  +:+ "<div style='font-size:1rem;font-weight:bold;'>" +:+ str v +:+ "</div>"
  +:+ "</div>".

(** The grid of metrics, [n_cols] to a row (lines 83-95). *)
Definition render_metrics (items : list (string * value)) : page unit :=
  for_each (range 0 (length items) n_cols) (λ i,
    emit tab_video (Columns n_cols) ≫= λ _,
    for_each (enumerate (take n_cols (drop i items))) (λ jlv,
      emit tab_video (ColumnMarkdown jlv.1 (markdown_str jlv.2.1 jlv.2.2) true))).

(** Play the video (lines 97-102).  With a column of texts in the place of
    the cell the division is carried out cell by cell and gives a column
    of paths, which has no [exists]. *)
Definition play_video (fs : node) (lesson_dir : path) (row : Series) : page unit :=
  radar_video ← lift (getitem row "Radar Video");
  match radar_video with
  | VColumn Object _ =>
      lift (Raise (AttributeError "'Series' object has no attribute 'exists'"))
  | _ =>
      video_file ← lift (truediv lesson_dir (Some radar_video));
      lift (exists_ fs video_file) ≫= λ found : bool,
      if found
      then st_video fs tab_video video_file
      else emit tab_video (Error ("Video not found: " +:+ path_str video_file))
  end.

(** A stand-in for the printer of pandas in the sample runs: the cells
    with their labels, then the name of the column. *)
Definition sample_series_text (kind : dtype) (column : string)
    (labels cells : list value) : string :=
  String.concat EmptyString
    (zip_with (λ l v, str l +:+ "    " +:+ str v +:+ "; ") labels cells)
  +:+ "Name: " +:+ column.

(** Closing a decidable goal on a concrete world by evaluation. *)
Ltac by_decide := apply (bool_decide_unpack _); vm_compute; exact I.

(** The same for a property of every element of a concrete list. *)
Ltac by_columns := apply (proj1 (Forall_forall _ _)); by_decide.

Section Page.

(** A statement depends on the printer only when it names it. *)
Set Default Proof Using "Type".

(** The text pandas prints for the cells [cells] of the column [column],
    of type [kind], in the rows labelled [labels]. *)
Variable series_text : dtype → string → list value → list value → string.

(** The positions of the rows labelled [l]. *)
Definition positions (df : DataFrame) (l : value) : list nat :=
  filter (λ j, index df !! j = Some l) (seq 0 (length (data df))).

(** A column of the frame cut down to the rows at the positions [ps],
    which all carry the label [l]: its type, and the text pandas prints for
    it. *)
Definition sub_column (df : DataFrame) (l : value) (ps : list nat) (c : string)
    : value :=
  VColumn (column_dtype (column_cells df c))
    (series_text (column_dtype (column_cells df c)) c (replicate (length ps) l)
       ((λ p, default VNaN (column_cells df c !! p)) <$> ps)).

(** [df.loc[idx]]; [None] is Python's [None].  One row labelled [idx] is
    handed back as a row, its cells in the type of the row; several are
    handed back as a frame, whose entry under a column is the column of
    their cells. *)
Definition loc (df : DataFrame) (idx : option value) : result Series :=
  match idx with
  | Some l =>
      match positions df l with
      | [] => Raise (KeyError [str l])
      | [p] =>
          Ok (zip (columns df)
                (upcast (row_dtype df) <$> default [] (data df !! p)))
      | ps => Ok ((λ c, (c, sub_column df l ps c)) <$> columns df)
      end
  | None => Raise (KeyError ["None"])
  end.

(** The label of a shot in the select box (lines 51-53). *)
Definition format_shot (df : DataFrame) (idx : value) : result string :=
  row ← loc df (Some idx);
  club ← getitem row "Club";
  shot_type ← getitem row "Shot Type";
  carry ← getitem row "Carry [yds]";
  mret (str idx +:+ ": " +:+ str club +:+ " | " +:+ str shot_type
        +:+ " | Carry " +:+ str carry +:+ " yd").

(** The select box hands back one of its options, or [None] when it has
    none; in the latter case [df.loc] raises before the index is used. *)
Definition shot_detail_view (fs : node) (lesson_dir : path) (df : DataFrame)
    (shot_choice : nat) : page unit :=
  emit tab_video (Subheader "Select a Shot to Play Video") ≫= λ _,
  selected_idx ← st_selectbox tab_video "Choose shot by index:" (index df)
                   (format_shot df) shot_choice;
  row ← lift (loc df selected_idx);
  let metrics := build_metrics (default VNaN selected_idx) row in
  emit tab_video (Subheader "Shot Metrics") ≫= λ _,
  render_metrics metrics ≫= λ _,
  play_video fs lesson_dir row.

(** ** The page (lines 20-102)

    [base_dir] is what [get_base_dir()] returns, the folder of the script. *)

Definition main (fs : node) (base_dir : path) (lesson_choice shot_choice : nat)
    : page unit :=
  emit MainArea (Title "Golf Launch Monitor Viewer") ≫= λ _,
  lessons ← lift (find_lessons fs base_dir);
  let lesson_names := fmap name lessons in
  selected_lesson ← st_selectbox Sidebar "Select Lesson Folder" lesson_names
                      Ok lesson_choice;
  lesson_dir ← lift (truediv base_dir (VStr <$> selected_lesson));
  let csv_files := glob_csv fs lesson_dir in
  match csv_files with
  | [] => emit MainArea (Error ("No CSV file found in " +:+ path_str lesson_dir))
  | csv :: _ =>
      df ← load_data fs csv;
      emit MainArea (Tabs ["All Shots"; "Video Player"]) ≫= λ _,
      shot_table_view csv df ≫= λ _,
      shot_detail_view fs lesson_dir df shot_choice
  end.

(** * Vocabulary of the statements *)

(** An entry of the base directory that [find_lessons] keeps. *)
Definition is_lesson (e : string * node) : Prop :=
  is_dir e.2 ∧ e.1 ≠ "venv" ∧ e.1 ≠ ".venv".

#[global] Instance is_lesson_dec e : Decision (is_lesson e).
Proof. unfold is_lesson. apply _. Defined.

Definition session0 : session := {| cache := ∅; reads := []; out := [] |}.

(** The select box of the detail view hands back the index [i]: every
    label was formatted and [i] is the option taken. *)
Definition shot_selected (df : DataFrame) (shot_choice : nat) (i : value) : Prop :=
  (st_selectbox tab_video "Choose shot by index:" (index df) (format_shot df)
     shot_choice session0).1 = Ok (Some i).

(** The value the metrics dict holds under a label. *)
Definition metric (selected_idx : value) (row : Series) (c : string) : value :=
  if String.eqb c "Index" then selected_idx
  else get row c (VStr "N/A").

(** What the detail view shows before the grid. *)
Definition detail_head (labels : list string) : list (container * element) :=
  [(tab_video, Subheader "Select a Shot to Play Video");
   (tab_video, Selectbox "Choose shot by index:" labels);
   (tab_video, Subheader "Shot Metrics")].

(** One row of the grid as it is shown: the column layout, then cell [j]
    with the label and the value of the [j]-th metric of the row. *)
Definition grid_row (cells : list (string * value)) : list (container * element) :=
  (tab_video, Columns n_cols)
  :: imap (λ j lv, (tab_video, ColumnMarkdown j (markdown_str lv.1 lv.2) true)) cells.

(** The markup of a cell of the grid: the label above the text of the
    value. *)
Definition cell_markup (label text : string) : string :=
  "<div style='text-align:center;'><div style='font-size:0.8rem;color:#666;'>"
  +:+ label
  +:+ "</div><div style='font-size:1rem;font-weight:bold;'>"
  +:+ text +:+ "</div></div>".

(** Cutting a list into consecutive pieces of [n] elements; the last piece
    may be shorter. *)
Fixpoint chunks_fuel {A} (fuel n : nat) (l : list A) : list (list A) :=
  match fuel with
  | 0 => []
  | S fuel' =>
      match l with
      | [] => []
      | _ :: _ => take n l :: chunks_fuel fuel' n (drop n l)
      end
  end.

Definition chunks {A} (n : nat) (l : list A) : list (list A) :=
  chunks_fuel (length l) n l.

(** The elements of the video step: the player or its error message. *)
Definition is_playback (e : element) : bool :=
  match e with
  | Video _ | Error _ => true
  | _ => false
  end.

(** The result of the video step and what it shows; neither depends on
    the session. *)
Definition video_outcome (fs : node) (lesson_dir : path) (row : Series)
    : result unit * list (container * element) :=
  let run := play_video fs lesson_dir row session0 in (run.1, out run.2).

(** An integer cell that fits in 64 bits, signed; any other cell does. *)
Definition fits_int64 (v : value) : Prop :=
  match v with
  | VInt z => (- 2 ^ 63 ≤ z < 2 ^ 63)%Z
  | _ => True
  end.

#[global] Instance fits_int64_dec v : Decision (fits_int64 v).
Proof. destruct v; apply _. Defined.

(** A text that starts with exactly two slashes. *)
Definition double_root (s : string) : bool :=
  match s with
  | String a (String b rest) =>
      Ascii.eqb a "/"%char && Ascii.eqb b "/"%char && negb (is_absolute rest)
  | _ => false
  end.

(** ** Sample worlds *)

Definition df0 : DataFrame :=
  {| columns := ["Player"; "Time"; "Club"; "Club Speed [mph]"; "Shot Type";
                 "Carry [yds]"; "Radar Video"; "Index"; "Total [yds]"];
     row_labels := None;
     data := [[VStr "Ann"; VStr "10:01"; VStr "7i"; VFloat "78.2"; VStr "Draw";
               VFloat "151.3"; VStr "v1.mp4"; VInt 1; VFloat "160.0"];
              [VStr "Ann"; VStr "10:03"; VStr "PW"; VFloat "70.1"; VStr "Fade";
               VFloat "110.0"; VStr "v2.mp4"; VInt 2; VNaN]] |}.

(** The second row of [df0]. *)
Definition second_shot : list value :=
  [VStr "Ann"; VStr "10:03"; VStr "PW"; VFloat "70.1"; VStr "Fade";
   VFloat "110.0"; VStr "v2.mp4"; VInt 2; VNaN].

(** A ten-shot session; its Index column counts from one. *)
Definition shot10 (n : nat) : list value :=
  [VStr "Ann"; VStr "10:00"; VStr "7i"; VFloat "80.0"; VStr "Straight";
   VInt (150 + Z.of_nat n); VStr ("shot" +:+ pretty n +:+ ".mp4");
   VInt (Z.of_nat n + 1); VFloat "1.33"].

Definition df10 : DataFrame :=
  {| columns := ["Player"; "Time"; "Club"; "Club Speed [mph]"; "Shot Type";
                 "Carry [yds]"; "Radar Video"; "Index"; "Smash"];
     row_labels := None;
     data := shot10 <$> seq 0 10 |}.

(** A session whose export lacks the Club column. *)
Definition df_noclub : DataFrame :=
  {| columns := ["Player"; "Time"; "Club Speed [mph]"; "Shot Type";
                 "Carry [yds]"; "Radar Video"];
     row_labels := None;
     data := [[VStr "Ann"; VStr "10:01"; VFloat "78.2"; VStr "Draw";
               VFloat "151.3"; VStr "v1.mp4"]] |}.

(** An export with numbers only: clubs and shot types are coded, the carry
    is in whole yards, the smash factor is a float. *)
Definition df_codes : DataFrame :=
  {| columns := ["Club"; "Shot Type"; "Carry [yds]"; "Smash"];
     row_labels := None;
     data := [[VInt 7; VInt 3; VInt 150; VFloat "1.33"];
              [VInt 9; VInt 1; VInt 120; VFloat "1.27"]] |}.

(** An export whose records have one field more than the header, a tag
    in front: the tag became the label of the row.  Ann has two shots. *)
Definition df_players : DataFrame :=
  {| columns := preview_cols;
     row_labels := Some [VStr "Ann"; VStr "Bob"; VStr "Ann"];
     data := [[VStr "Ann Lee"; VStr "10:01"; VStr "7i"; VFloat "78.2";
               VStr "Draw"; VInt 150; VStr "a1.mp4"];
              [VStr "Bob Ray"; VStr "10:02"; VStr "PW"; VFloat "70.1";
               VStr "Fade"; VInt 110; VStr "b1.mp4"];
              [VStr "Ann Lee"; VStr "10:03"; VStr "7i"; VFloat "79.0";
               VStr "Draw"; VInt 160; VStr "a2.mp4"]] |}.

(** An export with a carry that does not fit in 64 bits. *)
Definition df_big : DataFrame :=
  {| columns := preview_cols;
     row_labels := None;
     data := [[VStr "Ann"; VStr "10:01"; VStr "7i"; VFloat "78.2"; VStr "Draw";
               VInt (2 ^ 64); VStr "v1.mp4"]] |}.


(** The script's folder: two lessons, a virtualenv, the script.  The video
    of the second shot of LessonA is not there. *)
Definition fs0 : node :=
  Dir [("app", Dir [("LessonA", Dir [("notes.txt", File None);
                                     ("shots.csv", File (Some df0));
                                     ("v1.mp4", File None)]);
                    ("venv", Dir []);
                    ("View_FS_Golf_Lesson.py", File None);
                    ("LessonB", Dir [])])].

Definition lessonA : path := ["app"; "LessonA"].
Definition shots_csv : path := ["app"; "LessonA"; "shots.csv"].


(** ** The folder of the script (lines 6-7) *)

(** [p.parent]; the root is its own parent. *)
Definition parent (p : path) : path := removelast p.

(** [file] is the path of the script, Python's [__file__]. *)
Definition get_base_dir (file : path) : path := parent file.

(** ** More vocabulary *)

Fixpoint has_slash (s : string) : bool :=
  match s with
  | EmptyString => false
  | String c rest => Ascii.eqb c "/"%char || has_slash rest
  end.

Fixpoint has_colon (s : string) : bool :=
  match s with
  | EmptyString => false
  | String c rest => Ascii.eqb c ":"%char || has_colon rest
  end.

(** A name as a directory holds it: not empty, not ["."], without a
    separator. *)
Definition simple_name (n : string) : Prop :=
  n ≠ EmptyString ∧ n ≠ "." ∧ has_slash n = false.

(** A page step that does nothing to the session but show elements. *)
Definition only_shows {A} (m : page A) : Prop :=
  ∀ s, ∃ l, (m s).2 = show l s.

(** A lesson folder with two exports and the video of the first shot. *)
Definition fs2 : node :=
  Dir [("app", Dir [("Lesson1", Dir [("readme.md", File None);
                                     ("b.csv", File (Some df0));
                                     ("a.csv", File (Some df10));
                                     ("v1.mp4", File None)]);
                    ("Broken", Dir [("shots.csv", File None)]);
                    ("View_FS_Golf_Lesson.py", File None)])].

Definition script : path := ["app"; "View_FS_Golf_Lesson.py"].

(** * Properties *)
(** ** Running a page *)

Lemma show_show l1 l2 s : show l2 (show l1 s) = show (l1 ++ l2) s.
Proof. unfold show. simpl. by rewrite <- app_assoc. Qed.

Lemma show_nil s : show [] s = s.
Proof. unfold show. destruct s. simpl. by rewrite app_nil_r. Qed.

Section Bind.
Context {A B : Type} (m : page A) (f : A → page B) (s : session).

Lemma bind_ok a s' : m s = (Ok a, s') → (m ≫= f) s = f a s'.
Proof. intros H. unfold mbind, page_bind. by rewrite H. Qed.

Lemma bind_raise e s' : m s = (Raise e, s') → (m ≫= f) s = (Raise e, s').
Proof. intros H. unfold mbind, page_bind. by rewrite H. Qed.
End Bind.

Lemma bind_emit {B} c e (f : unit → page B) s :
  (emit c e ≫= f) s = f tt (show [(c, e)] s).
Proof. reflexivity. Qed.

Lemma bind_lift {A B} (r : result A) (f : A → page B) s :
  (lift r ≫= f) s = match r with Ok a => f a s | Raise e => (Raise e, s) end.
Proof. by destruct r. Qed.

Lemma for_each_emit {A} c (g : A → element) (l : list A) s :
  for_each l (λ x, emit c (g x)) s = (Ok tt, show ((λ x, (c, g x)) <$> l) s).
Proof.
  revert s. induction l as [|x l IH]; intros s.
  - simpl. unfold mret, page_ret. by rewrite show_nil.
  - cbn [for_each]. by rewrite bind_emit, IH, show_show.
Qed.

(** ** Formatting a list of options *)

Section MapM.
Context {A B : Type} (f : A → result B).

Lemma mapM_result_lookup l ys i x :
  mapM f l = Ok ys → l !! i = Some x →
  ∃ y, f x = Ok y ∧ ys !! i = Some y.
Proof.
  revert ys i. induction l as [|a l IH]; intros ys i Hm Hx; [done|].
  simpl in Hm. destruct (f a) as [b|e] eqn:Hfa; [|done]. simpl in Hm.
  destruct (mapM f l) as [bs|e] eqn:Hl; [|done]. simpl in Hm.
  injection Hm as <-. destruct i as [|i]; simpl in *.
  - injection Hx as <-. eauto.
  - eauto.
Qed.

Lemma mapM_result_length l ys : mapM f l = Ok ys → length ys = length l.
Proof.
  revert ys. induction l as [|a l IH]; intros ys Hm.
  - by injection Hm as <-.
  - simpl in Hm. destruct (f a) as [b|e]; [|done]. simpl in Hm.
    destruct (mapM f l) as [bs|e]; [|done]. simpl in Hm.
    injection Hm as <-. simpl. by rewrite IH.
Qed.

Lemma mapM_result_ok l :
  Forall (λ x, is_ok (f x)) l → ∃ ys, mapM f l = Ok ys.
Proof.
  induction 1 as [|a l Ha _ (ys & IH)]; [by exists []|].
  destruct (f a) as [b|e] eqn:Hfa; [|done].
  exists (b :: ys). simpl. rewrite Hfa. simpl. by rewrite IH.
Qed.

Lemma mapM_result_raise_inv l e :
  mapM f l = Raise e → ∃ x, x ∈ l ∧ f x = Raise e.
Proof.
  induction l as [|a l IH]; [done|]. simpl.
  destruct (f a) as [b|e1] eqn:Hfa; simpl.
  - destruct (mapM f l) as [bs|e2]; simpl; [done|].
    intros [= <-]. destruct (IH eq_refl) as (x & Hx & Hfx).
    exists x. split; [by right|done].
  - intros [= <-]. exists a. split; [by left|done].
Qed.
End MapM.

Lemma mapM_Ok {A} (l : list A) : mapM (M := result) Ok l = Ok l.
Proof. induction l as [|x l IH]; [done|]. simpl. by rewrite IH. Qed.

Lemma chosen_nonempty {A} (options : list A) choice :
  options ≠ [] → is_Some (chosen options choice).
Proof.
  intros Hne. unfold chosen. destruct (options !! choice); [done|].
  destruct options; [done|]. by eexists.
Qed.

Lemma chosen_elem_of {A} (options : list A) choice x :
  chosen options choice = Some x → x ∈ options.
Proof.
  unfold chosen. destruct (options !! choice) as [y|] eqn:Hy.
  - intros [= <-]. by eapply list_elem_of_lookup_2.
  - apply head_Some_elem_of.
Qed.

(** The side bar select box never fails. *)
Lemma sidebar_selectbox label (names : list string) choice s :
  st_selectbox Sidebar label names Ok choice s
  = (Ok (chosen names choice), show [(Sidebar, Selectbox label names)] s).
Proof. unfold st_selectbox. by rewrite bind_lift, mapM_Ok. Qed.

(** ** Rows and columns *)

Section Rows.
Context (cols : list string) (r : list value).

Lemma assoc_zip_lookup k c v :
  NoDup cols → cols !! k = Some c → r !! k = Some v →
  assoc c (zip cols r) = Some v.
Proof.
  intros Hnd. revert r k.
  induction Hnd as [|c' cs Hnotin Hnd IH]; intros r' k Hc Hv; [done|].
  destruct r' as [|v' r']; [done|].
  destruct k as [|k]; simpl in *.
  - injection Hc as ->. injection Hv as ->. by rewrite String.eqb_refl.
  - destruct (String.eqb_spec c c') as [->|Hne].
    + exfalso. apply Hnotin. by eapply list_elem_of_lookup_2.
    + eauto.
Qed.

Lemma assoc_zip_None c : c ∉ cols → assoc c (zip cols r) = None.
Proof.
  revert r. induction cols as [|c' cs IH]; intros r' Hnotin; [done|].
  destruct r' as [|v' r']; [done|]. simpl.
  apply not_elem_of_cons in Hnotin as [Hne Hnotin].
  destruct (String.eqb_spec c c'); [done|]. auto.
Qed.

Lemma assoc_zip_Some c v :
  assoc c (zip cols r) = Some v →
  ∃ k, cols !! k = Some c ∧ r !! k = Some v.
Proof.
  revert r. induction cols as [|c' cs IH]; intros r' Has; [done|].
  destruct r' as [|v' r']; [done|]. simpl in Has.
  destruct (String.eqb_spec c c') as [->|Hne].
  - injection Has as ->. by exists 0.
  - destruct (IH _ Has) as (k & ? & ?). by exists (S k).
Qed.
End Rows.

Lemma assoc_fmap_Some {A} (g : string → A) (l : list string) c :
  c ∈ l → assoc c ((λ c, (c, g c)) <$> l) = Some (g c).
Proof.
  induction l as [|c' l IH]; intros Hin; [by apply elem_of_nil in Hin|].
  simpl. destruct (String.eqb_spec c c') as [->|Hne]; [done|].
  apply elem_of_cons in Hin as [?|Hin]; [done|]. by apply IH.
Qed.

Lemma assoc_fmap_None {A} (g : string → A) (l : list string) c :
  c ∉ l → assoc c ((λ c, (c, g c)) <$> l) = None.
Proof.
  induction l as [|c' l IH]; intros Hn; [done|].
  apply not_elem_of_cons in Hn as [Hne Hn]. simpl.
  destruct (String.eqb_spec c c'); [done|]. by apply IH.
Qed.

(** In a well-formed frame every row has a cell under every column. *)
Lemma wf_cell df i r k c :
  wf_frame df → data df !! i = Some r → columns df !! k = Some c →
  is_Some (r !! k).
Proof.
  intros (_ & Hlen & _) Hr Hc.
  eapply Forall_lookup_1 in Hlen; [|exact Hr]. simpl in Hlen.
  apply lookup_lt_is_Some. rewrite Hlen. by eapply lookup_lt_Some.
Qed.

Lemma getitem_cols_ok df cols :
  cols ⊆ columns df →
  getitem_cols df cols
  = Ok {| columns := cols;
          row_labels := row_labels df;
          data := (λ r, (λ c, get (zip (columns df) r) c VNaN) <$> cols)
                    <$> data df |}.
Proof.
  intros Hsub. unfold getitem_cols.
  destruct (filter (λ c, c ∉ columns df) cols) as [|c miss] eqn:Hmiss; [done|].
  assert (c ∈ filter (λ c, c ∉ columns df) cols) as Hin
    by (rewrite Hmiss; left).
  apply list_elem_of_filter in Hin as [Hn Hc]. by destruct Hn; apply Hsub.
Qed.

Lemma wf_df0 : wf_frame df0.
Proof. by_decide. Qed.

(** *** The index *)

Lemma index_length df : length (index df) = length (data df).
Proof. unfold index. apply length_imap. Qed.

Lemma index_lookup df j :
  j < length (data df) → index df !! j = Some (label_at df j).
Proof.
  intros Hj. unfold index. rewrite list_lookup_imap.
  destruct (lookup_lt_is_Some_2 (data df) j Hj) as [r ->]. done.
Qed.

Lemma index_lookup_lt df j l : index df !! j = Some l → j < length (data df).
Proof. intros H. rewrite <- index_length. by eapply lookup_lt_Some. Qed.

(** The index of a frame read without labels is the position of the row. *)
Lemma index_default df j l :
  row_labels df = None → index df !! j = Some l → l = VInt (Z.of_nat j).
Proof.
  intros Hnone Hl. pose proof (index_lookup_lt _ _ _ Hl) as Hj.
  rewrite (index_lookup _ _ Hj) in Hl. injection Hl as <-.
  unfold label_at. by rewrite Hnone.
Qed.

(** A projection keeps the index. *)
Lemma index_projection df cols (g : list value → list value) :
  index {| columns := cols; row_labels := row_labels df; data := g <$> data df |}
  = index df.
Proof. unfold index, label_at. cbn [data row_labels]. by rewrite imap_fmap. Qed.

Lemma positions_elem df l j : j ∈ positions df l ↔ index df !! j = Some l.
Proof.
  unfold positions. rewrite list_elem_of_filter, elem_of_seq. split; [tauto|].
  intros Hl. split; [done|]. apply index_lookup_lt in Hl. lia.
Qed.

Lemma positions_lt df l p : p ∈ positions df l → p < length (data df).
Proof. rewrite positions_elem. apply index_lookup_lt. Qed.

Lemma single_elem {A} (l : list A) (p : A) :
  NoDup l → (∀ x, x ∈ l ↔ x = p) → l = [p].
Proof.
  intros Hnd Hp. destruct l as [|x l].
  - pose proof (proj2 (Hp p) eq_refl) as Hin. by apply elem_of_nil in Hin.
  - assert (x = p) as -> by (apply Hp; left).
    destruct l as [|y l]; [done|].
    assert (y = p) as -> by (apply Hp; right; left).
    apply NoDup_cons in Hnd as [Hnotin _]. destruct Hnotin. left.
Qed.

(** In a frame read without labels a position labels its own row and no
    other. *)
Lemma positions_default df p :
  row_labels df = None → p < length (data df) →
  positions df (VInt (Z.of_nat p)) = [p].
Proof.
  intros Hnone Hp. apply single_elem.
  - unfold positions. apply NoDup_filter, NoDup_seq.
  - intros j. rewrite positions_elem. split.
    + intros Hl. apply (index_default _ _ _ Hnone) in Hl as [= Heq]. lia.
    + intros ->. rewrite (index_lookup _ _ Hp). unfold label_at. by rewrite Hnone.
Qed.

(** *** Taking a row out of the frame *)

Lemma loc_single df l p r :
  positions df l = [p] → data df !! p = Some r →
  loc df (Some l) = Ok (zip (columns df) (upcast (row_dtype df) <$> r)).
Proof. intros Hp Hr. unfold loc. by rewrite Hp, Hr. Qed.

(** [df.loc] raises nothing but a [KeyError]. *)
Lemma loc_raises df idx e : loc df idx = Raise e → ∃ l, e = KeyError l.
Proof.
  unfold loc. destruct idx as [l|]; [|intros [= <-]; by eexists].
  destruct (positions df l) as [|p [|p' ps]]; [|done..].
  intros [= <-]. by eexists.
Qed.

(** A label of the index is found. *)
Lemma loc_index df l : l ∈ index df → is_ok (loc df (Some l)).
Proof.
  intros Hl. apply list_elem_of_lookup in Hl as [j Hj].
  apply positions_elem in Hj. unfold loc.
  destruct (positions df l) as [|p [|p' ps]]; [|done..].
  by apply elem_of_nil in Hj.
Qed.

(** What is taken out has no entry under a name that is not a column. *)
Lemma loc_columns_None df idx row c :
  loc df idx = Ok row → c ∉ columns df → assoc c row = None.
Proof.
  unfold loc. destruct idx as [l|]; [|done].
  destruct (positions df l) as [|p [|p' ps]]; [done|..]; intros [= <-] Hn.
  - by apply assoc_zip_None.
  - by apply (assoc_fmap_None (sub_column df l (p :: p' :: ps))).
Qed.

(** In a well-formed frame it has an entry under every column. *)
Lemma loc_columns_Some df idx row c :
  wf_frame df → loc df idx = Ok row → c ∈ columns df → is_Some (assoc c row).
Proof.
  intros Hwf. unfold loc. destruct idx as [l|]; [|done].
  destruct (positions df l) as [|p [|p' ps]] eqn:Hpos; [done|..];
    intros [= <-] Hc.
  - assert (p ∈ positions df l) as Hp by (rewrite Hpos; left).
    apply positions_lt in Hp.
    destruct (lookup_lt_is_Some_2 (data df) p Hp) as [r Hr]. rewrite Hr.
    apply list_elem_of_lookup in Hc as [k Hk].
    destruct (wf_cell _ _ _ _ _ Hwf Hr Hk) as [v Hv]. cbn [default from_option id].
    exists (upcast (row_dtype df) v).
    eapply assoc_zip_lookup; [apply Hwf|exact Hk|].
    by rewrite list_lookup_fmap, Hv.
  - eexists. by apply (assoc_fmap_Some (sub_column df l (p :: p' :: ps))).
Qed.

(** *** The type of a row *)

(** A frame with a text cell has rows of objects: they hold the cells as
    the columns do. *)
Lemma column_dtype_text cells s : VStr s ∈ cells → column_dtype cells = Object.
Proof.
  intros Hin. unfold column_dtype.
  assert (∀ f : value → bool, f (VStr s) = false → forallb f cells = false)
    as Hno.
  { intros f Hf. destruct (forallb f cells) eqn:Hall; [|done].
    rewrite forallb_forall in Hall.
    rewrite Hall in Hf; [done|by apply list_elem_of_In]. }
  by rewrite !Hno.
Qed.

Lemma common_dtype_object l : Object ∈ l → common_dtype l = Object.
Proof.
  intros Hin. unfold common_dtype.
  assert (∀ t, t ≠ Object → forallb (λ t', bool_decide (t' = t)) l = false)
    as Hno.
  { intros t Ht. destruct (forallb _ l) eqn:Hall; [|done].
    rewrite forallb_forall in Hall.
    apply list_elem_of_In, Hall, bool_decide_eq_true_1 in Hin. congruence. }
  rewrite !Hno by done.
  replace (existsb (λ t, bool_decide (t = Object)) l) with true; [done|].
  symmetry. apply existsb_exists. exists Object.
  split; [by apply list_elem_of_In|by apply bool_decide_eq_true_2].
Qed.

Lemma row_dtype_text df p r k c s :
  NoDup (columns df) →
  data df !! p = Some r → columns df !! k = Some c → r !! k = Some (VStr s) →
  row_dtype df = Object.
Proof.
  intros Hnd Hr Hk Hs. unfold row_dtype. apply common_dtype_object.
  apply list_elem_of_fmap. exists c. split; [|by eapply list_elem_of_lookup_2].
  symmetry. apply (column_dtype_text _ s). unfold column_cells.
  apply list_elem_of_fmap. exists r. split; [|by eapply list_elem_of_lookup_2].
  unfold get. by rewrite (assoc_zip_lookup _ _ _ _ _ Hnd Hk Hs).
Qed.

Lemma upcast_object (r : list value) : upcast Object <$> r = r.
Proof. induction r as [|v r IH]; [done|]. by rewrite fmap_cons, IH. Qed.

(** ** Lesson discovery *)

Lemma name_child p e : name (child p e) = e.
Proof. unfold name, child. by rewrite last_snoc. Qed.

Lemma not_excluded (x : string) : x ∉ excluded ↔ x ≠ "venv" ∧ x ≠ ".venv".
Proof.
  unfold excluded. rewrite not_elem_of_union, !not_elem_of_singleton. done.
Qed.

Lemma filter_children (p : path) (es : list (string * node)) :
  filter (λ d : path * node, is_dir d.2 ∧ name d.1 ∉ excluded)
         ((λ e, (child p e.1, e.2)) <$> es)
  = (λ e, (child p e.1, e.2)) <$> filter is_lesson es.
Proof.
  induction es as [|e es IH]; [done|].
  rewrite fmap_cons, !filter_cons, IH. simpl. rewrite name_child.
  destruct (decide (is_lesson e)) as [Hl|Hl];
    destruct (decide _) as [Hd|Hd]; try done;
    unfold is_lesson in Hl; rewrite not_excluded in Hd; tauto.
Qed.

Lemma find_lessons_filter fs base_dir es :
  resolve fs base_dir = Some (Dir es) →
  find_lessons fs base_dir
  = Ok ((λ e, child base_dir e.1) <$> filter is_lesson es).
Proof.
  intros Hres. unfold find_lessons, iterdir. rewrite Hres. cbv beta iota.
  rewrite filter_children. f_equal. rewrite <- list_fmap_compose. done.
Qed.

(** A filter keeps the longest subsequence of its kind. *)
Lemma sublist_filter_max {A} (P : A → Prop) `{!∀ x, Decision (P x)} (l k : list A) :
  k `sublist_of` l → Forall P k → k `sublist_of` filter P l.
Proof.
  induction 1 as [|x k l Hs IH|x k l Hs IH]; intros HP.
  - constructor.
  - apply Forall_cons in HP as [Hx HP].
    rewrite filter_cons_True by done. constructor. auto.
  - rewrite filter_cons. destruct (decide (P x)); [constructor|]; auto.
Qed.

(** C1: for a base directory with entries [es], [find_lessons] returns the
    paths of a subsequence [kept] of [es] (so in directory order) in which
    every entry is a directory not named venv or .venv (so no file is ever
    returned), which holds exactly the entries of that kind, and which is
    the longest such subsequence.  For the subdirectories LessonA, venv,
    LessonB it returns LessonA and LessonB. *)
Theorem find_lessons_spec :
  (∀ fs base_dir es,
     resolve fs base_dir = Some (Dir es) →
     ∃ kept,
       find_lessons fs base_dir = Ok ((λ e, child base_dir e.1) <$> kept) ∧
       kept `sublist_of` es ∧
       (∀ e, e ∈ kept ↔ e ∈ es ∧ is_dir e.2 ∧ e.1 ≠ "venv" ∧ e.1 ≠ ".venv") ∧
       (∀ k, k `sublist_of` es → Forall is_lesson k → k `sublist_of` kept)) ∧
  (∀ fs base_dir a v b,
     resolve fs base_dir
       = Some (Dir [("LessonA", Dir a); ("venv", Dir v); ("LessonB", Dir b)]) →
     find_lessons fs base_dir
       = Ok [child base_dir "LessonA"; child base_dir "LessonB"]).
Proof.
  split.
  - intros fs base_dir es Hres. exists (filter is_lesson es).
    split; [by apply find_lessons_filter|].
    split; [apply sublist_filter|].
    split; [|intros k; apply sublist_filter_max].
    intros e. rewrite list_elem_of_filter. unfold is_lesson.
    split; [intros [(Hd & Hv & Hw) Hin]|intros (Hin & Hd & Hv & Hw)];
      repeat split; assumption.
  - intros fs base_dir a v b Hres.
    rewrite (find_lessons_filter _ _ _ Hres). reflexivity.
Qed.

(** ** The page up to the tabs *)

(** The page up to the search for the CSV file. *)
Lemma main_prefix fs base_dir lc sc s lessons lesson :
  find_lessons fs base_dir = Ok lessons →
  chosen (name <$> lessons) lc = Some lesson →
  main fs base_dir lc sc s
  = let lesson_dir := joinpath base_dir lesson in
    let s1 := show [(MainArea, Title "Golf Launch Monitor Viewer");
                    (Sidebar, Selectbox "Select Lesson Folder" (name <$> lessons))] s in
    match glob_csv fs lesson_dir with
    | [] => emit MainArea (Error ("No CSV file found in " +:+ path_str lesson_dir)) s1
    | csv :: _ =>
        (df ← load_data fs csv;
         emit MainArea (Tabs ["All Shots"; "Video Player"]) ≫= λ _,
         shot_table_view csv df ≫= λ _,
         shot_detail_view fs lesson_dir df sc) s1
    end.
Proof.
  intros Hfind Hsel. unfold main.
  rewrite bind_emit, bind_lift, Hfind.
  erewrite bind_ok by apply sidebar_selectbox.
  rewrite Hsel, show_show. simpl. rewrite bind_lift. simpl.
  by destruct (glob_csv fs (joinpath base_dir lesson)).
Qed.

Lemma glob_csv_none fs p es :
  resolve fs p = Some (Dir es) →
  Forall (λ e, is_csv_name e.1 = false) es →
  glob_csv fs p = [].
Proof.
  intros Hres Hall. unfold glob_csv. rewrite Hres. clear Hres.
  induction Hall as [|e es He _ IH]; [done|].
  rewrite filter_cons_False; [exact IH|]. rewrite He. auto.
Qed.

(** C4: when the chosen lesson directory holds no entry matching [*.csv],
    [main] shows the title, the lesson selector and the error message
    naming the directory, and returns: no tabs, no table view, no detail
    view, and the loader is not called. *)
Theorem main_no_csv fs base_dir lc sc s lessons lesson es :
  find_lessons fs base_dir = Ok lessons →
  chosen (name <$> lessons) lc = Some lesson →
  resolve fs (joinpath base_dir lesson) = Some (Dir es) →
  Forall (λ e, is_csv_name e.1 = false) es →
  main fs base_dir lc sc s
  = (Ok tt,
     show [(MainArea, Title "Golf Launch Monitor Viewer");
           (Sidebar, Selectbox "Select Lesson Folder" (name <$> lessons));
           (MainArea, Error ("No CSV file found in "
                             +:+ path_str (joinpath base_dir lesson)))] s).
Proof.
  intros Hfind Hsel Hres Hall.
  rewrite (main_prefix _ _ _ _ _ _ _ Hfind Hsel). simpl.
  rewrite (glob_csv_none _ _ _ Hres Hall).
  unfold emit. by rewrite show_show.
Qed.

(** ** The memoised loader *)

(** A miss runs the body, which reads the file once. *)
Lemma load_data_miss fs csv s :
  cache s !! csv = None →
  reads (load_data fs csv s).2 = reads s ++ [csv].
Proof.
  intros Hmiss. unfold load_data, cache_data. rewrite Hmiss.
  unfold read_csv. by destruct (resolve fs csv) as [[[df|]|]|].
Qed.

(** A call that returned the frame [df] left it in the store. *)
Lemma load_data_stored fs csv s df s1 :
  load_data fs csv s = (Ok df, s1) → cache s1 !! csv = Some df.
Proof.
  unfold load_data, cache_data.
  destruct (cache s !! csv) as [d|] eqn:Hc.
  - intros [= <- <-]. exact Hc.
  - destruct (read_csv fs csv s) as [[d|e] s'] eqn:Hr; intros [= <- <-].
    simpl. apply lookup_insert_eq.
Qed.

(** The loader does not look at what the page shows. *)
Lemma load_data_show fs csv l s :
  load_data fs csv (show l s)
  = ((load_data fs csv s).1, show l (load_data fs csv s).2).
Proof.
  unfold load_data, cache_data, read_csv. cbn [show cache].
  destruct (cache s !! csv) as [df|]; [done|].
  by destruct (resolve fs csv) as [[[df|]|]|].
Qed.

(** C6: when a call of [load_data] on a path returned the frame [df], a
    later call on the same path returns [df] again as long as the store
    still holds what the first call left in it, whatever the file system
    has become ([fs'] is arbitrary); the later call leaves the session as it
    was, so [pd.read_csv] is not called again. *)
Theorem load_data_cached fs fs' csv s df s1 s2 :
  load_data fs csv s = (Ok df, s1) →
  cache s1 ⊆ cache s2 →
  load_data fs' csv s2 = (Ok df, s2) ∧
  reads (load_data fs' csv s2).2 = reads s2.
Proof.
  intros Hfirst Hkeep.
  apply load_data_stored in Hfirst.
  pose proof (lookup_weaken _ _ _ _ Hfirst Hkeep) as Hhit.
  unfold load_data, cache_data. by rewrite Hhit.
Qed.

(** ** The table view *)

(** Without one of its columns the table view raises. *)
Lemma shot_table_view_missing csv df s c :
  c ∈ preview_cols → c ∉ columns df →
  ∃ missing,
    shot_table_view csv df s
    = (Raise (KeyError missing),
       show [(tab_all, Subheader ("All Shots: " +:+ name csv))] s) ∧
    c ∈ missing.
Proof.
  intros Hc Hn. unfold shot_table_view, getitem_cols.
  assert (c ∈ filter (λ c, c ∉ columns df) preview_cols) as Hin
    by by apply list_elem_of_filter.
  rewrite bind_emit, bind_lift.
  destruct (filter _ preview_cols) as [|m ms]; [by apply elem_of_nil in Hin|].
  by exists (m :: ms).
Qed.

Lemma fits_arrow cells : Forall fits_int64 cells → arrow_ok cells = true.
Proof.
  intros Hfit. unfold arrow_ok. apply orb_true_intro. left.
  apply forallb_forall. intros v Hv.
  rewrite Forall_forall in Hfit. apply list_elem_of_In, Hfit in Hv.
  destruct v as [|z| | |]; try done. unfold in_int64.
  apply andb_true_intro. split; [apply Z.leb_le|apply Z.ltb_lt]; apply Hv.
Qed.

(** A frame whose integers fit in 64 bits is converted and shown. *)
Lemma st_dataframe_fits c view s :
  Forall fits_int64 (index view) →
  (∀ col, col ∈ columns view → Forall fits_int64 (column_cells view col)) →
  st_dataframe c view s = (Ok tt, show [(c, Dataframe view)] s).
Proof.
  intros Hindex Hdata. unfold st_dataframe.
  replace (forallb arrow_ok (index view :: (column_cells view <$> columns view)))
    with true; [done|].
  symmetry. apply forallb_forall. intros cells Hcells. apply fits_arrow.
  apply list_elem_of_In, elem_of_cons in Hcells as [->|Hcells]; [done|].
  apply list_elem_of_fmap in Hcells as (col & -> & Hcol). by apply Hdata.
Qed.

(** The cells of a preview column of the projection are those of the
    frame. *)
Lemma column_cells_projection df (cols : list string) c :
  NoDup cols → c ∈ cols →
  column_cells
    {| columns := cols; row_labels := row_labels df;
       data := (λ r, (λ c, get (zip (columns df) r) c VNaN) <$> cols)
                 <$> data df |} c
  = column_cells df c.
Proof.
  intros Hnd Hc. unfold column_cells. cbn [columns data].
  rewrite <- list_fmap_compose. apply list_fmap_ext. intros _ r _. simpl.
  apply list_elem_of_lookup in Hc as [k Hk]. unfold get at 1.
  by rewrite (assoc_zip_lookup _ _ k c (get (zip (columns df) r) c VNaN) Hnd Hk)
    by by rewrite list_lookup_fmap, Hk.
Qed.

(** With all its columns there and integers that fit, the table view shows
    the projection. *)
Lemma shot_table_view_run csv df s :
  preview_cols ⊆ columns df →
  Forall fits_int64 (index df) →
  (∀ c, c ∈ preview_cols → Forall fits_int64 (column_cells df c)) →
  shot_table_view csv df s
  = (Ok tt,
     show [(tab_all, Subheader ("All Shots: " +:+ name csv));
           (tab_all,
            Dataframe
              {| columns := preview_cols;
                 row_labels := row_labels df;
                 data := (λ r, (λ c, get (zip (columns df) r) c VNaN)
                                 <$> preview_cols) <$> data df |})] s).
Proof.
  intros Hsub Hindex Hfit. unfold shot_table_view.
  rewrite bind_emit, bind_lift, (getitem_cols_ok _ _ Hsub).
  rewrite st_dataframe_fits, ?show_show; [done|..].
  - by rewrite index_projection.
  - intros c Hc. cbn [columns] in Hc.
    rewrite column_cells_projection; [by apply Hfit|by_decide|done].
Qed.

(** C2, as amended: for a well-formed frame that has all the preview
    columns, and whose integers in the index and in the preview columns fit
    in 64 bits, the table view shows its sub-header and one frame [view]
    whose header is [preview_cols], which has as many rows as the loaded
    frame under the same labels, and whose cell in row [i] under a preview
    column [c] is the cell of row [i] of the loaded frame under [c]. *)
Theorem shot_table_view_spec csv df s :
  wf_frame df →
  preview_cols ⊆ columns df →
  Forall fits_int64 (index df) →
  (∀ c, c ∈ preview_cols → Forall fits_int64 (column_cells df c)) →
  ∃ view,
    shot_table_view csv df s
    = (Ok tt, show [(tab_all, Subheader ("All Shots: " +:+ name csv));
                    (tab_all, Dataframe view)] s) ∧
    columns view
    = ["Player"; "Time"; "Club"; "Club Speed [mph]"; "Shot Type"; "Carry [yds]";
       "Radar Video"] ∧
    length (data view) = length (data df) ∧
    index view = index df ∧
    ∀ i r j c k,
      data df !! i = Some r →
      preview_cols !! j = Some c →
      columns df !! k = Some c →
      ∃ r' v, data view !! i = Some r' ∧ length r' = 7 ∧
              r' !! j = Some v ∧ r !! k = Some v.
Proof.
  intros Hwf Hsub Hindex Hfit. eexists. split; [|split; [|split; [|split]]].
  - by apply shot_table_view_run.
  - reflexivity.
  - simpl. by rewrite length_fmap.
  - apply index_projection.
  - intros i r j c k Hr Hj Hk. cbn [data].
    destruct (wf_cell _ _ _ _ _ Hwf Hr Hk) as [v Hv].
    exists ((λ c, get (zip (columns df) r) c VNaN) <$> preview_cols), v.
    split; [by rewrite list_lookup_fmap, Hr|].
    split; [by rewrite length_fmap|]. split; [|done].
    rewrite list_lookup_fmap, Hj. cbn [fmap option_fmap option_map]. unfold get.
    by rewrite (assoc_zip_lookup _ _ _ _ _ (proj1 Hwf) Hk Hv).
Qed.

(** An integer that does not fit in 64 bits stops the table view: the
    frame [df_big] is well formed, has all the preview columns and one row,
    and the conversion raises after the sub-header; no table is shown. *)
Lemma table_view_big_integer :
  wf_frame df_big ∧
  preview_cols ⊆ columns df_big ∧
  length (data df_big) = 1 ∧
  shot_table_view ["app"; "LessonA"; "shots.csv"] df_big session0
  = (Raise StreamlitDataframeConversionError,
     show [(tab_all, Subheader "All Shots: shots.csv")] session0).
Proof.
  split; [|split; [|split]]; try reflexivity.
  by_decide.
Qed.

(** ** The shot selector *)

Lemma format_shot_run df idx row club shot_type carry :
  loc df (Some idx) = Ok row →
  assoc "Club" row = Some club →
  assoc "Shot Type" row = Some shot_type →
  assoc "Carry [yds]" row = Some carry →
  format_shot df idx
  = Ok (str idx +:+ ": " +:+ str club +:+ " | " +:+ str shot_type
        +:+ " | Carry " +:+ str carry +:+ " yd").
Proof.
  intros Hr Hclub Hshot Hcarry. unfold format_shot, getitem.
  rewrite Hr. simpl. rewrite Hclub. simpl. rewrite Hshot. simpl.
  by rewrite Hcarry.
Qed.

(** The entry under a column when several rows carry the label. *)
Lemma loc_several df l p p' ps c :
  positions df l = p :: p' :: ps → c ∈ columns df →
  ∃ row,
    loc df (Some l) = Ok row ∧
    assoc c row = Some (sub_column df l (p :: p' :: ps) c).
Proof.
  intros Hpos Hc. eexists. unfold loc. rewrite Hpos. split; [reflexivity|].
  by apply (assoc_fmap_Some (sub_column df l (p :: p' :: ps))).
Qed.

(** C9, as amended: the formatter returns
    "idx: club | shot type | Carry carry yd",
    where idx is the text of the label and the three values are what the
    row taken out for the label holds under Club, Shot Type and
    Carry [yds].  When the label [idx] stands at position [p] of the index
    of a well-formed frame and nowhere else, these are the cells of row
    [p] in the type of the row (integers print as floats when the columns
    are numeric but not all of one integer type), and the label is the
    one at position [p] of the select box.  When the label stands at
    several positions, the three values are the columns of the cells of
    all these rows, in the text pandas prints for them. *)
Theorem format_shot_spec :
  (∀ df idx p r kc ks ky club shot_type carry,
     wf_frame df →
     positions df idx = [p] →
     data df !! p = Some r →
     columns df !! kc = Some "Club" → r !! kc = Some club →
     columns df !! ks = Some "Shot Type" → r !! ks = Some shot_type →
     columns df !! ky = Some "Carry [yds]" → r !! ky = Some carry →
     let label := str idx +:+ ": " +:+ str (upcast (row_dtype df) club)
                  +:+ " | " +:+ str (upcast (row_dtype df) shot_type)
                  +:+ " | Carry " +:+ str (upcast (row_dtype df) carry)
                  +:+ " yd" in
     format_shot df idx = Ok label ∧
     ∀ labels, mapM (format_shot df) (index df) = Ok labels →
               labels !! p = Some label) ∧
  (∀ df idx p p' ps,
     positions df idx = p :: p' :: ps →
     "Club" ∈ columns df → "Shot Type" ∈ columns df →
     "Carry [yds]" ∈ columns df →
     format_shot df idx
     = Ok (str idx +:+ ": "
           +:+ str (sub_column df idx (p :: p' :: ps) "Club") +:+ " | "
           +:+ str (sub_column df idx (p :: p' :: ps) "Shot Type")
           +:+ " | Carry "
           +:+ str (sub_column df idx (p :: p' :: ps) "Carry [yds]")
           +:+ " yd")).
Proof.
  split.
  - intros df idx p r kc ks ky club shot_type carry
      Hwf Hpos Hr Hkc Hclub Hks Hshot Hky Hcarry label.
    assert (format_shot df idx = Ok label) as Hfmt.
    { apply (format_shot_run _ _ _ _ _ _ (loc_single _ _ _ _ Hpos Hr));
        (eapply assoc_zip_lookup; [apply Hwf|eassumption|]);
        rewrite list_lookup_fmap; by rewrite ?Hclub, ?Hshot, ?Hcarry. }
    split; [exact Hfmt|]. intros labels Hall.
    assert (index df !! p = Some idx) as Hidx
      by (apply positions_elem; rewrite Hpos; left).
    destruct (mapM_result_lookup _ _ _ _ _ Hall Hidx) as (y & Hy & ->).
    congruence.
  - intros df idx p p' ps Hpos Hclub Hshot Hcarry.
    destruct (loc_several _ _ _ _ _ _ Hpos Hclub) as (row & Hrow & Hc1).
    destruct (loc_several _ _ _ _ _ _ Hpos Hshot) as (row2 & Hrow2 & Hc2).
    destruct (loc_several _ _ _ _ _ _ Hpos Hcarry) as (row3 & Hrow3 & Hc3).
    assert (row2 = row) as -> by congruence.
    assert (row3 = row) as -> by congruence.
    by rewrite (format_shot_run _ _ _ _ _ _ Hrow Hc1 Hc2 Hc3).
Qed.

(** The formatter raises nothing but a [KeyError]. *)
Lemma format_shot_raises df idx e :
  format_shot df idx = Raise e → ∃ l, e = KeyError l.
Proof.
  unfold format_shot, getitem.
  destruct (loc df (Some idx)) as [row|e'] eqn:Hloc; simpl;
    [|intros [= <-]; by eapply loc_raises].
  destruct (assoc "Club" _); simpl; [|intros [= <-]; by eexists].
  destruct (assoc "Shot Type" _); simpl; [|intros [= <-]; by eexists].
  destruct (assoc "Carry [yds]" _); simpl; [|intros [= <-]; by eexists].
  done.
Qed.

Lemma format_shot_missing df idx c :
  c ∈ ["Club"; "Shot Type"; "Carry [yds]"] → c ∉ columns df →
  ∃ l, format_shot df idx = Raise (KeyError l).
Proof.
  intros Hc Hn. destruct (format_shot df idx) as [label|e] eqn:Hf.
  - exfalso. revert Hf. unfold format_shot, getitem.
    destruct (loc df (Some idx)) as [row|e'] eqn:Hloc; simpl; [|done].
    pose proof (loc_columns_None _ _ _ _ Hloc Hn) as Hnone.
    repeat apply elem_of_cons in Hc as [->|Hc];
      [..|by apply elem_of_nil in Hc];
      rewrite ?Hnone;
      try (destruct (assoc "Club" _); simpl; [|done]); rewrite ?Hnone;
      try (destruct (assoc "Shot Type" _); simpl; [|done]); rewrite ?Hnone;
      done.
  - destruct (format_shot_raises _ _ _ Hf) as [l ->]. by exists l.
Qed.

Lemma format_shot_present df idx :
  wf_frame df →
  "Club" ∈ columns df → "Shot Type" ∈ columns df → "Carry [yds]" ∈ columns df →
  idx ∈ index df →
  is_ok (format_shot df idx).
Proof.
  intros Hwf Hclub Hshot Hcarry Hidx.
  pose proof (loc_index _ _ Hidx) as Hloc.
  destruct (loc df (Some idx)) as [row|] eqn:Hrow; [|done].
  destruct (loc_columns_Some _ _ _ _ Hwf Hrow Hclub) as [club Hc1].
  destruct (loc_columns_Some _ _ _ _ Hwf Hrow Hshot) as [shot Hc2].
  destruct (loc_columns_Some _ _ _ _ Hwf Hrow Hcarry) as [carry Hc3].
  by rewrite (format_shot_run _ _ _ _ _ _ Hrow Hc1 Hc2 Hc3).
Qed.

(** What it takes for a shot to be selected, and what follows from it. *)
Lemma shot_selected_intro df sc labels i :
  mapM (format_shot df) (index df) = Ok labels →
  chosen (index df) sc = Some i →
  shot_selected df sc i.
Proof.
  intros Hl Hch. unfold shot_selected, st_selectbox.
  by rewrite bind_lift, Hl, bind_emit, Hch.
Qed.

Lemma shot_selected_inv df sc i :
  shot_selected df sc i →
  ∃ labels row,
    mapM (format_shot df) (index df) = Ok labels ∧
    length labels = length (data df) ∧
    chosen (index df) sc = Some i ∧
    loc df (Some i) = Ok row.
Proof.
  unfold shot_selected, st_selectbox. rewrite bind_lift.
  destruct (mapM (format_shot df) (index df)) as [labels|e] eqn:Hl; [|done].
  rewrite bind_emit. cbn [fst mret page_ret]. intros [= Hch].
  pose proof (loc_index _ _ (chosen_elem_of _ _ _ Hch)) as Hi.
  destruct (loc df (Some i)) as [row|] eqn:Hrow; [|done].
  exists labels, row. split; [done|]. split; [|done].
  rewrite (mapM_result_length _ _ _ Hl). apply index_length.
Qed.

(** With the selector's columns present some shot of a frame with rows is
    selected, the chosen one when the choice is a row. *)
Lemma shot_selected_present df sc :
  wf_frame df →
  "Club" ∈ columns df → "Shot Type" ∈ columns df → "Carry [yds]" ∈ columns df →
  data df ≠ [] →
  ∃ i, shot_selected df sc i.
Proof.
  intros Hwf Hclub Hshot Hcarry Hrows.
  destruct (mapM_result_ok (format_shot df) (index df)) as [labels Hl].
  { apply Forall_forall. intros i Hi. by apply format_shot_present. }
  destruct (chosen_nonempty (index df) sc) as [i Hch].
  { intros Hnil. apply Hrows, nil_length_inv.
    by rewrite <- index_length, Hnil. }
  exists i. by eapply shot_selected_intro.
Qed.

(** Without one of the selector's columns no shot is selected. *)
Lemma shot_selected_columns df sc i c :
  shot_selected df sc i →
  c ∈ ["Club"; "Shot Type"; "Carry [yds]"] → c ∈ columns df.
Proof.
  intros Hsel Hc. destruct (decide (c ∈ columns df)) as [|Hn]; [done|].
  destruct (shot_selected_inv _ _ _ Hsel) as (labels & r & Hl & _ & Hch & _).
  apply chosen_elem_of, list_elem_of_lookup in Hch as [j Hj].
  destruct (mapM_result_lookup _ _ _ _ _ Hl Hj) as (label & Hfmt & _).
  destruct (format_shot_missing df i c Hc Hn) as [l Hl']. congruence.
Qed.

(** ** The metrics grid *)

Section Chunks.
Context {A : Type} (n : nat) (Hn : 0 < n).

Lemma chunks_fuel_concat fuel (l : list A) :
  length l ≤ fuel → concat (chunks_fuel fuel n l) = l.
Proof using Hn.
  revert l. induction fuel as [|fuel IH]; intros l Hlen.
  - destruct l; [done|simpl in Hlen; lia].
  - destruct l as [|x l]; [done|].
    cbn [chunks_fuel concat]. rewrite IH.
    + apply take_drop.
    + rewrite length_drop. simpl in *. lia.
Qed.

Lemma chunks_fuel_bound fuel (l : list A) :
  Forall (λ c, 0 < length c ≤ n) (chunks_fuel fuel n l).
Proof using Hn.
  revert l. induction fuel as [|fuel IH]; intros l; [constructor|].
  destruct l as [|x l]; [constructor|].
  cbn [chunks_fuel]. constructor; [|apply IH].
  rewrite length_take. simpl. lia.
Qed.

Lemma chunks_concat (l : list A) : concat (chunks n l) = l.
Proof using Hn. by apply chunks_fuel_concat. Qed.
End Chunks.

Lemma zip_seq_imap {A B} (g : nat → A → B) (l : list A) k :
  (λ jx, g jx.1 jx.2) <$> zip (seq k (length l)) l = imap (λ j, g (k + j)) l.
Proof.
  revert k. induction l as [|x l IH]; intros k; [done|].
  rewrite imap_cons. cbn [length seq zip zip_with fmap list_fmap fst snd].
  rewrite Nat.add_0_r. f_equal. rewrite IH.
  apply imap_ext. intros j y _. simpl. f_equal. lia.
Qed.

(** One pass of the outer loop shows one row of the grid. *)
Lemma render_row cells s :
  (emit tab_video (Columns n_cols) ≫= λ _,
   for_each (enumerate cells) (λ jlv,
     emit tab_video (ColumnMarkdown jlv.1 (markdown_str jlv.2.1 jlv.2.2) true))) s
  = (Ok tt, show (grid_row cells) s).
Proof.
  rewrite bind_emit.
  rewrite (for_each_emit tab_video
             (λ jlv, ColumnMarkdown jlv.1 (markdown_str jlv.2.1 jlv.2.2) true)).
  rewrite show_show. unfold grid_row. do 2 f_equal. simpl. f_equal.
  apply (zip_seq_imap
           (λ j lv, (tab_video, ColumnMarkdown j (markdown_str lv.1 lv.2) true))
           cells 0).
Qed.

(** The outer loop from [start] on shows the pieces of the rest of the
    list. *)
Lemma render_from items fuel start s :
  for_each (range_from fuel start (length items) n_cols) (λ i,
    emit tab_video (Columns n_cols) ≫= λ _,
    for_each (enumerate (take n_cols (drop i items))) (λ jlv,
      emit tab_video (ColumnMarkdown jlv.1 (markdown_str jlv.2.1 jlv.2.2) true))) s
  = (Ok tt,
     show (concat (grid_row <$> chunks_fuel fuel n_cols (drop start items))) s).
Proof.
  revert start s. induction fuel as [|fuel IH]; intros start s.
  - simpl. unfold mret, page_ret. by rewrite show_nil.
  - cbn [range_from chunks_fuel].
    destruct (Nat.ltb_spec start (length items)) as [Hlt|Hge].
    + destruct (drop start items) as [|x rest] eqn:Hdrop.
      { apply drop_nil_inv in Hdrop. lia. }
      cbn [for_each]. erewrite bind_ok by apply render_row.
      rewrite IH, show_show, <- Hdrop, drop_drop. done.
    + rewrite drop_ge by lia.
      simpl. unfold mret, page_ret. by rewrite show_nil.
Qed.

Lemma render_metrics_run items s :
  render_metrics items s
  = (Ok tt, show (concat (grid_row <$> chunks n_cols items)) s).
Proof. apply (render_from items (length items) 0). Qed.

(** Every metric of the list has its cell in the grid. *)
Lemma grid_shows (items : list (string * value)) c v :
  (c, v) ∈ items →
  ∃ j, (tab_video, ColumnMarkdown j (markdown_str c v) true)
       ∈ concat (grid_row <$> chunks n_cols items).
Proof.
  intros Hin.
  rewrite <- (chunks_concat n_cols ltac:(unfold n_cols; lia) items) in Hin.
  apply list_elem_of_In, in_concat in Hin as (row & Hrow & Hcv).
  apply list_elem_of_In, list_elem_of_lookup in Hcv as [j Hj].
  exists j. apply list_elem_of_In, in_concat. exists (grid_row row).
  split; [by apply list_elem_of_In, list_elem_of_fmap_2, list_elem_of_In|].
  apply list_elem_of_In. unfold grid_row. right.
  apply list_elem_of_lookup. exists j. by rewrite list_lookup_imap, Hj.
Qed.

Lemma grid_no_playback (rows : list (list (string * value))) :
  Forall (λ ce, is_playback ce.2 = false) (concat (grid_row <$> rows)).
Proof.
  induction rows as [|row rows IH]; [constructor|].
  cbn [fmap list_fmap concat]. apply Forall_app. split; [|exact IH].
  unfold grid_row. constructor; [done|].
  apply Forall_forall. intros ce Hce.
  apply list_elem_of_lookup in Hce as [j Hj].
  rewrite list_lookup_imap in Hj.
  destruct (row !! j); [|done]. by injection Hj as <-.
Qed.

(** ** The metrics dict *)

Lemma build_metrics_metric idx row :
  build_metrics idx row = (λ c, (c, metric idx row c)) <$> desired_metrics.
Proof. reflexivity. Qed.

Lemma build_metrics_labels idx row :
  (build_metrics idx row).*1 = desired_metrics.
Proof. reflexivity. Qed.

Lemma build_metrics_rows idx row :
  chunks n_cols (build_metrics idx row)
  = [take 8 (build_metrics idx row); drop 8 (build_metrics idx row)].
Proof. reflexivity. Qed.

(** A cell of the metrics dict other than Index is a cell of the row, in
    the type of the row, or the placeholder; in a well-formed frame the
    placeholder stands for a column the frame does not have. *)
Lemma metric_of_row df i p r c v :
  data df !! p = Some r →
  (c, v) ∈ build_metrics i (zip (columns df) (upcast (row_dtype df) <$> r)) →
  c ≠ "Index" →
  (∃ k v0, columns df !! k = Some c ∧ r !! k = Some v0 ∧
           v = upcast (row_dtype df) v0) ∨
  (v = VStr "N/A" ∧ (wf_frame df → c ∉ columns df)).
Proof.
  intros Hr Hin Hne. rewrite build_metrics_metric in Hin.
  apply list_elem_of_fmap in Hin as (c' & [= <- ->] & _).
  unfold metric, get. apply String.eqb_neq in Hne. rewrite Hne.
  destruct (assoc c (zip (columns df) (upcast (row_dtype df) <$> r)))
    as [v|] eqn:Has.
  - left. apply assoc_zip_Some in Has as (k & Hk & Hv).
    rewrite list_lookup_fmap in Hv. apply fmap_Some in Hv as (v0 & Hv0 & ->).
    by exists k, v0.
  - right. split; [done|]. intros Hwf Hc.
    apply list_elem_of_lookup in Hc as [k Hk].
    destruct (wf_cell _ _ _ _ _ Hwf Hr Hk) as [v Hv].
    rewrite (assoc_zip_lookup _ _ k c (upcast (row_dtype df) v)) in Has;
      [done|apply Hwf|done|by rewrite list_lookup_fmap, Hv].
Qed.

Lemma metric_placeholder i (row : Series) c :
  c ∈ desired_metrics → c ≠ "Index" → assoc c row = None →
  (c, VStr "N/A") ∈ build_metrics i row.
Proof.
  intros Hc Hne Hn. rewrite build_metrics_metric.
  apply list_elem_of_fmap. exists c. split; [|done].
  unfold metric, get. apply String.eqb_neq in Hne. by rewrite Hne, Hn.
Qed.

(** The markup of a cell as the script writes it. *)
Lemma markdown_str_markup c v : markdown_str c v = cell_markup c (str v).
Proof. reflexivity. Qed.

(** A position prints as the number it is. *)
Lemma str_position (n : nat) : str (VInt (Z.of_nat n)) = pretty n.
Proof. by destruct n. Qed.

(** Every metric of the list has its cell in the grid, with its label and
    the text of its value. *)
Lemma grid_shows_markup (items : list (string * value)) c v :
  (c, v) ∈ items →
  ∃ j, (tab_video, ColumnMarkdown j (cell_markup c (str v)) true)
       ∈ concat (grid_row <$> chunks n_cols items).
Proof.
  intros Hin. destruct (grid_shows _ _ _ Hin) as [j Hj].
  exists j. by rewrite <- markdown_str_markup.
Qed.

(** ** The video step *)

(** The video step, case by case. *)
Lemma play_video_cases fs lesson_dir row s :
  play_video fs lesson_dir row s
  = match assoc "Radar Video" row with
    | None => (Raise (KeyError ["Radar Video"]), s)
    | Some (VStr f) =>
        match exists_ fs (joinpath lesson_dir f) with
        | Raise e => (Raise e, s)
        | Ok false =>
            (Ok tt,
             show [(tab_video,
                    Error ("Video not found: "
                           +:+ path_str (joinpath lesson_dir f)))] s)
        | Ok true =>
            match resolve fs (joinpath lesson_dir f) with
            | Some (File _) =>
                (Ok tt,
                 show [(tab_video, Video (path_str (joinpath lesson_dir f)))] s)
            | _ =>
                (Raise (MediaFileStorageError
                          (path_str (joinpath lesson_dir f))), s)
            end
        end
    | Some (VColumn Object _) =>
        (Raise (AttributeError "'Series' object has no attribute 'exists'"), s)
    | Some _ => (Raise (TypeError "unsupported operand type(s) for /"), s)
    end.
Proof.
  unfold play_video, getitem.
  destruct (assoc "Radar Video" row) as [[f|z|t| |[] t]|]; try reflexivity.
  rewrite bind_lift. cbv beta iota. rewrite bind_lift.
  cbn [truediv]. rewrite bind_lift.
  destruct (exists_ fs (joinpath lesson_dir f)) as [[|]|e]; try reflexivity.
  unfold st_video.
  by destruct (resolve fs (joinpath lesson_dir f)) as [[?|?]|].
Qed.

Lemma play_video_outcome fs lesson_dir row s :
  play_video fs lesson_dir row s
  = ((video_outcome fs lesson_dir row).1,
     show (video_outcome fs lesson_dir row).2 s).
Proof.
  unfold video_outcome. rewrite !play_video_cases.
  destruct (assoc "Radar Video" row) as [[f|z|t| |[] t]|];
    cbn [fst snd out session0]; rewrite ?show_nil; try reflexivity.
  destruct (exists_ fs (joinpath lesson_dir f)) as [[|]|e];
    cbn [fst snd out session0 show app]; rewrite ?show_nil; try reflexivity.
  destruct (resolve fs (joinpath lesson_dir f)) as [[?|?]|];
    cbn [fst snd out session0 show app]; by rewrite ?show_nil.
Qed.

(** The video step shows one element, the player or its error message,
    or it raises and shows nothing. *)
Lemma video_outcome_shape fs lesson_dir row :
  (∃ e, video_outcome fs lesson_dir row = (Ok tt, [(tab_video, e)]) ∧
        is_playback e = true) ∨
  (∃ e, video_outcome fs lesson_dir row = (Raise e, [])).
Proof.
  unfold video_outcome. rewrite play_video_cases.
  destruct (assoc "Radar Video" row) as [[f|z|t| |[] t]|];
    try (right; by eexists).
  destruct (exists_ fs (joinpath lesson_dir f)) as [[|]|e];
    [|left; by eexists|right; by eexists].
  destruct (resolve fs (joinpath lesson_dir f)) as [[?|?]|];
    [left; by eexists|right; by eexists..].
Qed.

Lemma video_outcome_cases fs lesson_dir row :
  Forall (λ ce, is_playback ce.2) (video_outcome fs lesson_dir row).2 ∧
  (is_ok (video_outcome fs lesson_dir row).1 = false →
   (video_outcome fs lesson_dir row).2 = []).
Proof.
  destruct (video_outcome_shape fs lesson_dir row)
    as [(e & -> & He)|(e & ->)]; cbn [fst snd].
  - split; [|done]. constructor; [simpl; by rewrite He|constructor].
  - by split; [constructor|].
Qed.


(** The video step on a text that names a file. *)
Lemma video_outcome_found fs lesson_dir (row : Series) f x :
  assoc "Radar Video" row = Some (VStr f) →
  exists_ fs (joinpath lesson_dir f) = Ok true →
  resolve fs (joinpath lesson_dir f) = Some (File x) →
  video_outcome fs lesson_dir row
  = (Ok tt, [(tab_video, Video (path_str (joinpath lesson_dir f)))]).
Proof.
  intros Hf Hyes Hfile. unfold video_outcome.
  by rewrite play_video_cases, Hf, Hyes, Hfile.
Qed.

(** Without the column the video step raises. *)
Lemma video_outcome_no_column fs lesson_dir (row : Series) :
  assoc "Radar Video" row = None →
  video_outcome fs lesson_dir row = (Raise (KeyError ["Radar Video"]), []).
Proof. intros Hn. unfold video_outcome. by rewrite play_video_cases, Hn. Qed.

(** An empty Radar Video cell is not text: the path cannot be built and the
    video step raises. *)
Remark play_video_empty_cell fs lesson_dir s :
  play_video fs lesson_dir [("Radar Video", VNaN)] s
  = (Raise (TypeError "unsupported operand type(s) for /"), s).
Proof. reflexivity. Qed.

(** ** The detail view *)

(** The detail view once a shot is selected: the head, the grid of the
    metrics of what [df.loc] hands back, and the video step. *)
Lemma shot_detail_view_shows fs lesson_dir df sc s i row :
  shot_selected df sc i →
  loc df (Some i) = Ok row →
  ∃ labels,
    length labels = length (data df) ∧
    shot_detail_view fs lesson_dir df sc s
    = ((video_outcome fs lesson_dir row).1,
       show (detail_head labels
             ++ concat (grid_row <$> chunks n_cols (build_metrics i row))
             ++ (video_outcome fs lesson_dir row).2) s).
Proof.
  intros Hsel Hr.
  destruct (shot_selected_inv _ _ _ Hsel) as (labels & _ & Hl & Hlen & Hch & _).
  exists labels. split; [done|].
  unfold shot_detail_view, st_selectbox.
  rewrite bind_emit.
  erewrite bind_ok; cycle 1.
  { rewrite bind_lift, Hl, bind_emit. reflexivity. }
  rewrite Hch, bind_lift, Hr. cbn [default from_option id].
  rewrite bind_emit.
  erewrite bind_ok by apply render_metrics_run.
  by rewrite play_video_outcome, !show_show.
Qed.

(** ** The metrics of the selected shot *)

(** C7, as amended: when the select box hands back the label [i], which
    stands at position [p] of the index and nowhere else, and [r] is row
    [p] of the frame, the detail view shows the grid of a metrics list
    [items] labelled by the thirteen desired metrics in which Index is [i]
    (in a frame read without labels: the position [p] itself, shown as the
    number [p]) and every other value is the cell of [r] under the label,
    in the type of the row, or the placeholder (in a well-formed frame: for
    a column the frame does not have); every metric is shown in a cell
    with its label and the text of its value; no cell of another row is
    shown. *)
Theorem shot_detail_view_row fs lesson_dir df sc s i p r :
  shot_selected df sc i →
  positions df i = [p] →
  data df !! p = Some r →
  ∃ labels items res tail,
    shot_detail_view fs lesson_dir df sc s
    = (res, show (detail_head labels
                  ++ concat (grid_row <$> chunks n_cols items) ++ tail) s) ∧
    Forall (λ ce, is_playback ce.2) tail ∧
    items.*1 = desired_metrics ∧
    items = build_metrics i (zip (columns df) (upcast (row_dtype df) <$> r)) ∧
    items !! 0 = Some ("Index", i) ∧
    (row_labels df = None →
     i = VInt (Z.of_nat p) ∧
     ∃ j, (tab_video, ColumnMarkdown j (cell_markup "Index" (pretty p)) true)
          ∈ concat (grid_row <$> chunks n_cols items)) ∧
    (∀ c v, (c, v) ∈ items → c ≠ "Index" →
            (∃ k v0, columns df !! k = Some c ∧ r !! k = Some v0 ∧
                     v = upcast (row_dtype df) v0) ∨
            (v = VStr "N/A" ∧ (wf_frame df → c ∉ columns df))) ∧
    (∀ c v, (c, v) ∈ items →
            ∃ j, (tab_video, ColumnMarkdown j (cell_markup c (str v)) true)
                 ∈ concat (grid_row <$> chunks n_cols items)).
Proof.
  intros Hsel Hpos Hr.
  destruct (shot_detail_view_shows fs lesson_dir df sc s i _ Hsel
              (loc_single _ _ _ _ Hpos Hr)) as (labels & _ & Hrun).
  eexists labels, _, _, _.
  split; [exact Hrun|].
  split; [apply video_outcome_cases|].
  split; [apply build_metrics_labels|].
  split; [done|]. split; [done|].
  split.
  { intros Hnone.
    assert (i = VInt (Z.of_nat p)) as ->.
    { apply (index_default df); [done|].
      apply positions_elem. rewrite Hpos. left. }
    split; [done|]. rewrite <- str_position.
    apply grid_shows_markup. left. }
  split; [intros c v; by apply (metric_of_row _ _ p)|].
  intros c v. apply grid_shows_markup.
Qed.

(** When the selected label stands at several positions, every metric
    whose column the frame has is shown as the column of the cells of all
    these rows, in the text pandas prints for it. *)
Lemma several_rows_metric fs lesson_dir df sc s i p p' ps c :
  shot_selected df sc i →
  positions df i = p :: p' :: ps →
  c ∈ desired_metrics → c ≠ "Index" → c ∈ columns df →
  ∃ labels items res tail j,
    shot_detail_view fs lesson_dir df sc s
    = (res, show (detail_head labels
                  ++ concat (grid_row <$> chunks n_cols items) ++ tail) s) ∧
    (tab_video,
     ColumnMarkdown j
       (cell_markup c (str (sub_column df i (p :: p' :: ps) c))) true)
    ∈ concat (grid_row <$> chunks n_cols items).
Proof.
  intros Hsel Hpos Hc Hne Hin.
  destruct (loc_several _ _ _ _ _ _ Hpos Hin) as (row & Hrow & Hcell).
  destruct (shot_detail_view_shows fs lesson_dir df sc s i row Hsel Hrow)
    as (labels & _ & Hrun).
  assert ((c, sub_column df i (p :: p' :: ps) c) ∈ build_metrics i row)
    as Hitem.
  { rewrite build_metrics_metric. apply list_elem_of_fmap. exists c.
    split; [|done]. unfold metric, get.
    apply String.eqb_neq in Hne. by rewrite Hne, Hcell. }
  destruct (grid_shows_markup _ _ _ Hitem) as [j Hj].
  by eexists labels, _, _, _, j.
Qed.

(** C8: the grid of any list of metrics is shown row by row, the rows being
    consecutive pieces of one to eight metrics that make up the list; and
    once a shot is selected the detail view shows the thirteen desired
    metrics in their declared order as two grid rows, of eight and of
    five. *)
Theorem metrics_grid_spec :
  (∀ items s,
     ∃ rows,
       render_metrics items s = (Ok tt, show (concat (grid_row <$> rows)) s) ∧
       concat rows = items ∧
       Forall (λ row, 0 < length row ≤ 8) rows) ∧
  (∀ fs lesson_dir df sc s i,
     shot_selected df sc i →
     ∃ labels row1 row2 res tail,
       shot_detail_view fs lesson_dir df sc s
       = (res, show (detail_head labels ++ grid_row row1 ++ grid_row row2
                     ++ tail) s) ∧
       Forall (λ ce, is_playback ce.2) tail ∧
       (row1 ++ row2).*1
       = ["Index"; "Carry [yds]"; "Total [yds]"; "Smash"; "Spin [rpm]";
          "Club Path [deg]"; "V-Plane [deg]"; "Height [ft]";
          "Club Speed [mph]"; "AOA [deg]"; "Low Point [in]"; "Club";
          "Shot Type"] ∧
       length row1 = 8 ∧ length row2 = 5).
Proof.
  split.
  - intros items s. exists (chunks n_cols items).
    split; [apply render_metrics_run|].
    split; [apply chunks_concat; unfold n_cols; lia|].
    apply (chunks_fuel_bound n_cols). unfold n_cols. lia.
  - intros fs lesson_dir df sc s i Hsel.
    destruct (shot_selected_inv _ _ _ Hsel) as (_ & row & _ & _ & _ & Hrow).
    destruct (shot_detail_view_shows fs lesson_dir df sc s i row Hsel Hrow)
      as (labels & _ & Hrun).
    exists labels, (take 8 (build_metrics i row)),
      (drop 8 (build_metrics i row)),
      (video_outcome fs lesson_dir row).1,
      (video_outcome fs lesson_dir row).2.
    split; [|split; [apply video_outcome_cases|done]].
    rewrite Hrun, build_metrics_rows. cbn [concat fmap list_fmap].
    by rewrite app_nil_r, <- !app_assoc.
Qed.

(** ** Missing metric columns *)


(** ** The unguarded lookups *)

(** C10: the formatter of the shot selector raises a [KeyError] when Club,
    Shot Type or Carry [yds] is not a column; the detail view of a frame
    that lacks one of these or Radar Video raises a [KeyError] and shows
    neither the player nor its error message, and when one of the selector's
    three is missing from a frame with rows it shows nothing but its first
    sub-header; whereas a desired metric absent from the row gets the
    placeholder in the metrics dict. *)
Theorem selector_unguarded :
  (∀ df idx c,
     c ∈ ["Club"; "Shot Type"; "Carry [yds]"] → c ∉ columns df →
     ∃ l, format_shot df idx = Raise (KeyError l)) ∧
  (∀ fs lesson_dir df sc s c,
     c ∈ ["Club"; "Shot Type"; "Carry [yds]"; "Radar Video"] →
     c ∉ columns df →
     ∃ l shown,
       shot_detail_view fs lesson_dir df sc s
       = (Raise (KeyError l), show shown s) ∧
       Forall (λ ce, is_playback ce.2 = false) shown ∧
       (c ≠ "Radar Video" → data df ≠ [] →
        shown = [(tab_video, Subheader "Select a Shot to Play Video")])) ∧
  (∀ i row c,
     c ∈ desired_metrics → c ≠ "Index" → assoc c row = None →
     (c, VStr "N/A") ∈ build_metrics i row).
Proof.
  split; [exact format_shot_missing|].
  split; [|exact metric_placeholder].
  intros fs lesson_dir df sc s c Hc Hn.
  destruct (mapM (format_shot df) (index df)) as [labels|e] eqn:Hl.
  - destruct (chosen (index df) sc) as [i|] eqn:Hch.
    + pose proof (shot_selected_intro _ _ _ _ Hl Hch) as Hsel.
      assert (c = "Radar Video") as ->.
      { destruct (decide (c = "Radar Video")) as [|Hne]; [done|].
        destruct Hn. apply (shot_selected_columns _ _ _ _ Hsel).
        rewrite !elem_of_cons in Hc. rewrite !elem_of_cons. tauto. }
      destruct (shot_selected_inv _ _ _ Hsel) as (_ & row & _ & _ & _ & Hrow).
      destruct (shot_detail_view_shows fs lesson_dir df sc s i row Hsel Hrow)
        as (labels' & _ & ->).
      rewrite (video_outcome_no_column _ _ _ (loc_columns_None _ _ _ _ Hrow Hn)).
      cbn [fst snd].
      eexists _, _. split; [reflexivity|]. split; [|done].
      apply Forall_app. split; [by repeat constructor|].
      apply Forall_app. split; [apply grid_no_playback|constructor].
    + unfold shot_detail_view, st_selectbox.
      rewrite bind_emit.
      erewrite bind_ok; cycle 1.
      { rewrite bind_lift, Hl, bind_emit. reflexivity. }
      rewrite Hch, bind_lift, show_show. cbn [loc].
      eexists _, _. split; [reflexivity|].
      split; [by repeat constructor|]. intros _ Hrows.
      destruct (chosen_nonempty (index df) sc) as [i Hi]; [|congruence].
      intros Hnil. apply Hrows, nil_length_inv.
      by rewrite <- index_length, Hnil.
  - destruct (mapM_result_raise_inv _ _ _ Hl) as (i & _ & Hfmt).
    destruct (format_shot_raises _ _ _ Hfmt) as [l ->].
    unfold shot_detail_view, st_selectbox.
    rewrite bind_emit.
    erewrite bind_raise; cycle 1.
    { rewrite bind_lift, Hl. reflexivity. }
    exists l, [(tab_video, Subheader "Select a Shot to Play Video")].
    split; [done|]. split; [by repeat constructor|done].
Qed.

(** ** A missing video file *)

(** The page once the frame is loaded. *)
Lemma main_loaded fs base_dir lc sc s lessons lesson csv rest df s1 :
  find_lessons fs base_dir = Ok lessons →
  chosen (name <$> lessons) lc = Some lesson →
  glob_csv fs (joinpath base_dir lesson) = csv :: rest →
  load_data fs csv s = (Ok df, s1) →
  main fs base_dir lc sc s
  = (shot_table_view csv df ≫= λ _,
     shot_detail_view fs (joinpath base_dir lesson) df sc)
      (show [(MainArea, Title "Golf Launch Monitor Viewer");
             (Sidebar, Selectbox "Select Lesson Folder" (name <$> lessons));
             (MainArea, Tabs ["All Shots"; "Video Player"])] s1).
Proof.
  intros Hfind Hsel Hglob Hload.
  rewrite (main_prefix _ _ _ _ _ _ _ Hfind Hsel). cbv zeta. rewrite Hglob.
  erewrite bind_ok; cycle 1.
  { rewrite load_data_show, Hload. reflexivity. }
  by rewrite bind_emit, show_show.
Qed.

(** The page on a frame that is shown in the table, up to the video step
    of the one row that carries the selected label. *)
Lemma main_row_selected fs base_dir lc sc s lessons lesson csv rest df s1
    i p r k f :
  find_lessons fs base_dir = Ok lessons →
  chosen (name <$> lessons) lc = Some lesson →
  glob_csv fs (joinpath base_dir lesson) = csv :: rest →
  load_data fs csv s = (Ok df, s1) →
  wf_frame df →
  preview_cols ⊆ columns df →
  Forall fits_int64 (index df) →
  (∀ c, c ∈ preview_cols → Forall fits_int64 (column_cells df c)) →
  chosen (index df) sc = Some i →
  positions df i = [p] →
  data df !! p = Some r →
  columns df !! k = Some "Radar Video" →
  r !! k = Some (VStr f) →
  assoc "Radar Video" (zip (columns df) r) = Some (VStr f) ∧
  ∃ view labels,
    main fs base_dir lc sc s
    = ((video_outcome fs (joinpath base_dir lesson) (zip (columns df) r)).1,
       show ([(MainArea, Title "Golf Launch Monitor Viewer");
              (Sidebar, Selectbox "Select Lesson Folder" (name <$> lessons));
              (MainArea, Tabs ["All Shots"; "Video Player"]);
              (tab_all, Subheader ("All Shots: " +:+ name csv));
              (tab_all, Dataframe view)]
             ++ detail_head labels
             ++ concat (grid_row <$> chunks n_cols
                          (build_metrics i (zip (columns df) r)))
             ++ (video_outcome fs (joinpath base_dir lesson)
                   (zip (columns df) r)).2) s1) ∧
    columns view = preview_cols ∧
    length (data view) = length (data df) ∧
    index view = index df ∧
    length labels = length (data df).
Proof.
  intros Hfind Hsel Hglob Hload Hwf Hsub Hindex Hfit Hch Hpos Hr Hk Hf.
  split; [by apply (assoc_zip_lookup _ _ k); [apply Hwf|..]|].
  set (s2 := show [(MainArea, Title "Golf Launch Monitor Viewer");
                   (Sidebar, Selectbox "Select Lesson Folder" (name <$> lessons));
                   (MainArea, Tabs ["All Shots"; "Video Player"])] s1).
  set (view := {| columns := preview_cols;
                  row_labels := row_labels df;
                  data := (λ r, (λ c, get (zip (columns df) r) c VNaN)
                                  <$> preview_cols) <$> data df |}).
  assert (shot_table_view csv df s2
          = (Ok tt, show [(tab_all, Subheader ("All Shots: " +:+ name csv));
                          (tab_all, Dataframe view)] s2)) as Htable
    by by apply shot_table_view_run.
  assert (shot_selected df sc i) as Hshot.
  { destruct (shot_selected_present df sc Hwf) as (i' & Hsel');
      try (apply Hsub; by_decide).
    - intros Hnil. by rewrite Hnil in Hr.
    - destruct (shot_selected_inv _ _ _ Hsel') as (_ & _ & _ & _ & Hch' & _).
      congruence. }
  assert (loc df (Some i) = Ok (zip (columns df) r)) as Hrow.
  { rewrite (loc_single _ _ _ _ Hpos Hr).
    by rewrite (row_dtype_text _ _ _ _ _ _ (proj1 Hwf) Hr Hk Hf), upcast_object. }
  destruct (shot_detail_view_shows fs (joinpath base_dir lesson) df sc
              (show [(tab_all, Subheader ("All Shots: " +:+ name csv));
                     (tab_all, Dataframe view)] s2) i _ Hshot Hrow)
    as (labels & Hlen & Hdetail).
  exists view, labels.
  split; [|split; [done|split; [by apply length_fmap|split;
                                  [apply index_projection|done]]]].
  rewrite (main_loaded _ _ _ _ _ _ _ _ _ _ _ Hfind Hsel Hglob Hload).
  fold s2. erewrite bind_ok by exact Htable.
  rewrite Hdetail. unfold s2. by rewrite !show_show.
Qed.


(** * Further properties *)

(** ** Strings and paths *)

Lemma app_cons_string a (s t : string) :
  String a s +:+ t = String a (s +:+ t).
Proof. reflexivity. Qed.

Lemma app_nil_r_string (s : string) : s +:+ EmptyString = s.
Proof. induction s as [|a s IH]; [done|]. by rewrite app_cons_string, IH. Qed.

Lemma app_assoc_string (s t u : string) : (s +:+ t) +:+ u = s +:+ (t +:+ u).
Proof.
  induction s as [|a s IH]; [done|]. by rewrite !app_cons_string, IH.
Qed.

Lemma rev_app_shift (s t u : string) :
  String.rev_app (String.rev_app s t) u = String.rev_app t (s +:+ u).
Proof.
  revert t u. induction s as [|a s IH]; intros t u; [done|].
  cbn [String.rev_app]. by rewrite IH.
Qed.

Lemma rev_rev (s : string) : String.rev (String.rev s) = s.
Proof.
  unfold String.rev. rewrite rev_app_shift. cbn [String.rev_app].
  apply app_nil_r_string.
Qed.

Lemma rev_app_append (s t u : string) :
  String.rev_app (s +:+ t) u = String.rev_app t (String.rev_app s u).
Proof.
  revert u. induction s as [|a s IH]; intros u; [done|].
  rewrite app_cons_string. cbn [String.rev_app]. apply IH.
Qed.

Lemma rev_app_tail (s t : string) :
  String.rev_app s t = String.rev s +:+ t.
Proof.
  unfold String.rev. revert t. induction s as [|a s IH]; intros t; [done|].
  cbn [String.rev_app]. rewrite IH, (IH (String a EmptyString)).
  by rewrite app_assoc_string.
Qed.

Lemma rev_append (s t : string) :
  String.rev (s +:+ t) = String.rev t +:+ String.rev s.
Proof. unfold String.rev at 1. by rewrite rev_app_append, rev_app_tail. Qed.

Lemma prefix_append (s t : string) :
  String.prefix s t = true ↔ ∃ u, t = s +:+ u.
Proof.
  revert t. induction s as [|a s IH]; intros t.
  - split; [intros _; by exists t|]. by destruct t.
  - destruct t as [|b t]; simpl.
    + split; [done|]. by intros [u Hu].
    + destruct (Ascii.ascii_dec a b) as [->|Hne].
      * rewrite IH. split; intros [u Hu]; exists u.
        -- by rewrite app_cons_string, Hu.
        -- rewrite app_cons_string in Hu. by injection Hu.
      * split; [done|]. intros [u Hu].
        rewrite app_cons_string in Hu. by injection Hu.
Qed.

(** The pattern [*.csv] matches the names that end in [.csv]. *)
Lemma is_csv_name_suffix (n : string) :
  is_csv_name n = true ↔ ∃ stem, n = stem +:+ ".csv".
Proof.
  unfold is_csv_name. rewrite prefix_append. split.
  - intros [u Hu]. exists (String.rev u).
    rewrite <- (rev_rev n), Hu, rev_append. by rewrite rev_rev.
  - intros [stem ->]. exists (String.rev stem). by rewrite rev_append.
Qed.

(** [glob('*.csv')] on a directory with entries [es] gives the paths of the
    longest subsequence of [es] whose names end in [.csv], in directory
    order, whatever kind of entry they are; on anything that is not a
    directory it gives nothing and does not raise. *)
Theorem glob_csv_spec :
  (∀ fs p es,
     resolve fs p = Some (Dir es) →
     ∃ kept,
       glob_csv fs p = (λ e, child p e.1) <$> kept ∧
       kept `sublist_of` es ∧
       (∀ e, e ∈ kept ↔ e ∈ es ∧ ∃ stem, e.1 = stem +:+ ".csv") ∧
       (∀ k, k `sublist_of` es →
             Forall (λ e, ∃ stem, e.1 = stem +:+ ".csv") k →
             k `sublist_of` kept)) ∧
  (∀ fs p, (∀ es, resolve fs p ≠ Some (Dir es)) → glob_csv fs p = []).
Proof.
  split.
  - intros fs p es Hres. exists (filter (λ e, is_csv_name e.1) es).
    split; [unfold glob_csv; by rewrite Hres|].
    split; [apply sublist_filter|]. split.
    + intros e. rewrite list_elem_of_filter, <- is_csv_name_suffix.
      rewrite Is_true_true. split; intros [? ?]; by split.
    + intros k Hsub Hall. apply sublist_filter_max; [done|].
      eapply Forall_impl; [exact Hall|]. intros e He. simpl.
      by apply Is_true_true, is_csv_name_suffix.
  - intros fs p Hnot. unfold glob_csv.
    destruct (resolve fs p) as [[?|es]|]; try done. by destruct (Hnot es).
Qed.

Lemma filter_all {A} (P : A → Prop) `{!∀ x, Decision (P x)} (l : list A) :
  Forall P l → filter P l = l.
Proof.
  induction 1 as [|x l Hx _ IH]; [done|].
  by rewrite filter_cons_True, IH.
Qed.

Lemma split_slash_append (n cur rest : string) :
  has_slash n = false →
  split_slash cur (n +:+ rest) = split_slash (cur +:+ n) rest.
Proof.
  revert cur. induction n as [|c n IH]; intros cur Hn.
  - by rewrite app_nil_r_string.
  - simpl in Hn. apply orb_false_elim in Hn as [Hc Hn].
    rewrite app_cons_string. cbn [split_slash]. rewrite Hc, (IH _ Hn).
    by rewrite app_assoc_string.
Qed.

Lemma split_slash_simple (n : string) :
  has_slash n = false → split_slash EmptyString n = [n].
Proof.
  intros Hn. rewrite <- (app_nil_r_string n) at 1.
  by rewrite (split_slash_append _ _ _ Hn).
Qed.

Lemma is_absolute_slash (n : string) : is_absolute n = true → has_slash n = true.
Proof. destruct n as [|c n]; [done|]. simpl. by intros ->. Qed.

(** Joining a plain name appends it. *)
Lemma joinpath_simple (p : path) (n : string) :
  simple_name n → joinpath p n = child p n.
Proof.
  intros (Hne & Hdot & Hn). unfold joinpath, child, parts.
  destruct (is_absolute n) eqn:Habs.
  { apply is_absolute_slash in Habs. congruence. }
  rewrite (split_slash_simple _ Hn). by rewrite filter_cons_True, filter_nil.
Qed.

Lemma concat_slash (p : path) (c : string) :
  c ≠ EmptyString →
  String.concat EmptyString ((λ c, "/" +:+ c) <$> (c :: p))
  = "/" +:+ c +:+ String.concat EmptyString ((λ c, "/" +:+ c) <$> p).
Proof.
  intros Hc. destruct p as [|c' p]; cbn [fmap list_fmap String.concat].
  - by rewrite app_nil_r_string.
  - by rewrite app_assoc_string.
Qed.

Lemma split_slash_concat (p : path) (cur : string) :
  Forall simple_name p →
  split_slash cur (String.concat EmptyString ((λ c, "/" +:+ c) <$> p))
  = cur :: p.
Proof.
  intros Hp. revert cur. induction Hp as [|c p (Hne & _ & Hc) _ IH]; intros cur.
  - reflexivity.
  - rewrite (concat_slash _ _ Hne). rewrite app_cons_string.
    cbn [split_slash]. rewrite Ascii.eqb_refl.
    change (EmptyString +:+ ?x) with x.
    by rewrite (split_slash_append _ _ _ Hc), IH.
Qed.

(** The text of a path denotes the path: parsing [str(p)] gives [p] back,
    and joining it to any path gives [p], since it is absolute. *)
Theorem path_str_round_trip (p q : path) :
  Forall simple_name p →
  parts (path_str p) = p ∧
  is_absolute (path_str p) = true ∧
  joinpath q (path_str p) = p.
Proof.
  intros Hp.
  assert (parts (path_str p) = p) as Hparts.
  { unfold parts, path_str. destruct p as [|c p]; [reflexivity|].
    rewrite (split_slash_concat _ _ Hp).
    rewrite filter_cons_False by (by intros [? _]).
    apply filter_all. eapply Forall_impl; [exact Hp|].
    intros n (? & ? & _). done. }
  assert (is_absolute (path_str p) = true) as Habs.
  { unfold path_str. destruct p as [|c p]; [reflexivity|].
    apply Forall_cons in Hp as [(Hne & _) _]. by rewrite (concat_slash _ _ Hne). }
  split; [done|]. split; [done|]. unfold joinpath. by rewrite Habs.
Qed.

(** ** Walking the tree *)

Lemma walk_child above cur (p : path) es n nd :
  walk above cur p = Some (Dir es) →
  assoc n es = Some nd → n ≠ ".." →
  walk above cur (p ++ [n]) = Some nd.
Proof.
  intros Hp Hn Hne. revert above cur Hp.
  induction p as [|c p IH]; intros above cur Hp.
  - injection Hp as ->. cbn [app walk].
    apply String.eqb_neq in Hne. by rewrite Hne, Hn.
  - cbn [app walk] in *. destruct (String.eqb c "..").
    + destruct cur as [?|es']; [done|]. destruct above; by apply IH.
    + destruct cur as [?|es']; [done|].
      destruct (assoc c es'); [by apply IH|done].
Qed.

Lemma walk_parent above cur (p : path) n nd :
  walk above cur (p ++ [n]) = Some nd → n ≠ ".." →
  ∃ es, walk above cur p = Some (Dir es) ∧ assoc n es = Some nd.
Proof.
  intros Hp Hne. revert above cur Hp.
  induction p as [|c p IH]; intros above cur Hp.
  - cbn [app walk] in *. apply String.eqb_neq in Hne. rewrite Hne in Hp.
    destruct cur as [?|es]; [done|]. exists es. split; [done|].
    by destruct (assoc n es).
  - cbn [app walk] in *. destruct (String.eqb c "..").
    + destruct cur as [?|es']; [done|]. destruct above; by apply IH.
    + destruct cur as [?|es']; [done|].
      destruct (assoc c es'); [by apply IH|done].
Qed.

(** The system call finds what the walk finds, unless it refuses a
    name. *)
Lemma stat_walk above cur (p : path) :
  match stat above cur p with
  | Found n => walk above cur p = Some n
  | NoEntry | NotDir => walk above cur p = None
  | NameTooLong => True
  end.
Proof.
  revert above cur. induction p as [|c p IH]; intros above cur; [done|].
  cbn [stat walk]. destruct cur as [?|es]; [by destruct (String.eqb c "..")|].
  destruct (String.eqb c "..").
  - destruct above as [|up above]; apply IH.
  - destruct (Nat.ltb 255 (byte_length c)); [done|].
    destruct (assoc c es) as [n|]; [apply IH|done].
Qed.

(** When [exists()] answers, it tells whether the tree holds an entry. *)
Lemma exists_path_exists fs (p : path) b :
  exists_ fs p = Ok b → path_exists fs p = b.
Proof.
  unfold exists_, path_exists, resolve.
  destruct (Nat.leb 4096 (byte_length (path_str p))); [done|].
  pose proof (stat_walk [] fs p) as Hwalk.
  destruct (stat [] fs p); [| | |done]; intros [= <-]; rewrite Hwalk.
  - by apply bool_decide_eq_true_2.
  - apply bool_decide_eq_false_2. by intros [? ?].
  - apply bool_decide_eq_false_2. by intros [? ?].
Qed.

Lemma assoc_NoDup {A} (l : list (string * A)) k v :
  NoDup l.*1 → (k, v) ∈ l → assoc k l = Some v.
Proof.
  induction l as [|[k' v'] l IH]; intros Hnd Hin; [by apply elem_of_nil in Hin|].
  cbn [fmap list_fmap fst] in Hnd. apply NoDup_cons in Hnd as [Hk' Hnd].
  simpl. apply elem_of_cons in Hin as [[= -> ->]|Hin].
  - by rewrite String.eqb_refl.
  - destruct (String.eqb_spec k k') as [->|_]; [|by apply IH].
    destruct Hk'. apply list_elem_of_fmap. by exists (k', v).
Qed.

Lemma assoc_elem_of {A} (l : list (string * A)) k v :
  assoc k l = Some v → (k, v) ∈ l.
Proof.
  induction l as [|[k' v'] l IH]; [done|]. simpl.
  destruct (String.eqb_spec k k') as [->|_].
  - intros [= ->]. left.
  - intros H. right. by apply IH.
Qed.

(** ** The lessons and the folder of the script *)

(** In a directory whose entries have distinct plain names, every lesson
    that [find_lessons] returns is an existing directory, it is the entry
    of its name, and joining its name to the base directory, as [main]
    does with the selected name, gives the lesson back. *)
Theorem lessons_are_directories fs base_dir es :
  resolve fs base_dir = Some (Dir es) →
  NoDup es.*1 →
  Forall (λ e, simple_name e.1 ∧ e.1 ≠ "..") es →
  ∃ lessons,
    find_lessons fs base_dir = Ok lessons ∧
    ∀ l, l ∈ lessons →
         joinpath base_dir (name l) = l ∧
         path_exists fs l = true ∧
         ∃ sub, resolve fs l = Some (Dir sub) ∧ (name l, Dir sub) ∈ es.
Proof.
  intros Hres Hnd Hnames. eexists. split; [by apply find_lessons_filter|].
  intros l Hl. apply list_elem_of_fmap in Hl as ([n nd] & -> & Hin).
  apply list_elem_of_filter in Hin as [(Hdir & _) Hin]. simpl in *.
  rewrite Forall_forall in Hnames. destruct (Hnames _ Hin) as [Hsimple Hup].
  rewrite name_child. split; [by apply joinpath_simple|].
  destruct nd as [?|sub]; [done|].
  assert (resolve fs (child base_dir n) = Some (Dir sub)) as Hsub.
  { eapply walk_child; [exact Hres| |done]. by apply assoc_NoDup. }
  split; [|by exists sub].
  unfold path_exists. rewrite Hsub. by apply bool_decide_eq_true_2.
Qed.

(** When the script is in the tree, its folder is a directory that
    [find_lessons] lists without raising, and the script, being a file, is
    not among the lessons (names in a directory being distinct). *)
Theorem script_folder_listed fs file n x :
  resolve fs file = Some (File x) →
  last file = Some n → n ≠ ".." →
  ∃ es lessons,
    resolve fs (get_base_dir file) = Some (Dir es) ∧
    child (get_base_dir file) n = file ∧
    find_lessons fs (get_base_dir file) = Ok lessons ∧
    (NoDup es.*1 → file ∉ lessons).
Proof.
  intros Hres Hlast Hne.
  apply last_Some in Hlast as [p ->].
  unfold get_base_dir, parent. rewrite removelast_last.
  destruct (walk_parent _ _ _ _ _ Hres Hne) as (es & Hp & Hn).
  exists es. eexists. split; [exact Hp|]. split; [done|].
  split; [by apply find_lessons_filter|].
  intros Hnd Hin. apply list_elem_of_fmap in Hin as ([n' nd] & Heq & Hin).
  apply list_elem_of_filter in Hin as [(Hdir & _) Hin]. simpl in *.
  unfold child in Heq. apply app_inj_tail in Heq as [_ <-].
  rewrite (assoc_NoDup _ _ _ Hnd Hin) in Hn. injection Hn as ->. done.
Qed.

(** ** Steps that only show *)

Lemma only_shows_ret {A} (a : A) : only_shows (mret a).
Proof. intros s. exists []. by rewrite show_nil. Qed.

Lemma only_shows_lift {A} (r : result A) : only_shows (lift r).
Proof. intros s. exists []. by rewrite show_nil. Qed.

Lemma only_shows_emit c e : only_shows (emit c e).
Proof. intros s. by exists [(c, e)]. Qed.

Lemma only_shows_bind {A B} (m : page A) (f : A → page B) :
  only_shows m → (∀ a, only_shows (f a)) → only_shows (m ≫= f).
Proof.
  intros Hm Hf s. destruct (Hm s) as [l Hl].
  unfold mbind, page_bind. destruct (m s) as [[a|e] s1]; simpl in Hl; subst s1.
  - destruct (Hf a (show l s)) as [l' Hl']. exists (l ++ l').
    by rewrite Hl', show_show.
  - by exists l.
Qed.

Lemma only_shows_for_each {A} (l : list A) (body : A → page unit) :
  (∀ x, only_shows (body x)) → only_shows (for_each l body).
Proof.
  intros Hbody. induction l as [|x l IH]; [apply only_shows_ret|].
  apply only_shows_bind; [apply Hbody|]. intros _. exact IH.
Qed.

Lemma only_shows_selectbox {A} c label (options : list A) format_func choice :
  only_shows (st_selectbox c label options format_func choice).
Proof.
  apply only_shows_bind; [apply only_shows_lift|]. intros labels.
  apply only_shows_bind; [apply only_shows_emit|]. intros _.
  apply only_shows_ret.
Qed.

Lemma only_shows_dataframe c view : only_shows (st_dataframe c view).
Proof.
  unfold st_dataframe. destruct (forallb _ _);
    [apply only_shows_emit|apply only_shows_lift].
Qed.

Lemma only_shows_table_view csv df : only_shows (shot_table_view csv df).
Proof.
  apply only_shows_bind; [apply only_shows_emit|]. intros _.
  apply only_shows_bind; [apply only_shows_lift|]. intros view.
  apply only_shows_dataframe.
Qed.

Lemma only_shows_play_video fs lesson_dir row :
  only_shows (play_video fs lesson_dir row).
Proof.
  intros s. rewrite play_video_outcome. by eexists.
Qed.

Lemma only_shows_detail_view fs lesson_dir df sc :
  only_shows (shot_detail_view fs lesson_dir df sc).
Proof.
  apply only_shows_bind; [apply only_shows_emit|]. intros _.
  apply only_shows_bind; [apply only_shows_selectbox|]. intros idx.
  apply only_shows_bind; [apply only_shows_lift|]. intros row.
  apply only_shows_bind; [apply only_shows_emit|]. intros _.
  apply only_shows_bind; [|intros _; apply only_shows_play_video].
  apply only_shows_for_each. intros i.
  apply only_shows_bind; [apply only_shows_emit|]. intros _.
  apply only_shows_for_each. intros jlv. apply only_shows_emit.
Qed.

(** The loader keeps what is stored, reads at most the file asked for, and
    only when it is not stored, and shows nothing. *)
Lemma load_data_grows fs csv s :
  cache s ⊆ cache (load_data fs csv s).2 ∧
  out (load_data fs csv s).2 = out s ∧
  (reads (load_data fs csv s).2 = reads s ∧ is_Some (cache s !! csv) ∨
   reads (load_data fs csv s).2 = reads s ++ [csv] ∧ cache s !! csv = None).
Proof.
  unfold load_data, cache_data, read_csv.
  destruct (cache s !! csv) as [df|] eqn:Hc; [by eauto|].
  destruct (resolve fs csv) as [[[df|]|]|]; simpl; (split; [|by eauto]);
    try done.
  by apply insert_subseteq.
Qed.

(** The session [main] leaves: the one it found with more shown, or, when
    it got as far as the loader, the one the loader left with more shown. *)
Lemma main_after_glob fs base_dir lc sc s lessons lesson csv rest :
  find_lessons fs base_dir = Ok lessons →
  chosen (name <$> lessons) lc = Some lesson →
  glob_csv fs (joinpath base_dir lesson) = csv :: rest →
  ∃ l, (main fs base_dir lc sc s).2 = show l (load_data fs csv s).2.
Proof.
  intros Hfind Hsel Hglob.
  destruct (load_data fs csv s) as [[df|e] s1] eqn:Hload.
  - rewrite (main_loaded _ _ _ _ _ _ _ _ _ _ _ Hfind Hsel Hglob Hload).
    destruct (only_shows_bind (shot_table_view csv df)
                (λ _, shot_detail_view fs (joinpath base_dir lesson) df sc)
                (only_shows_table_view _ _)
                (λ _, only_shows_detail_view _ _ _ _)
                (show [(MainArea, Title "Golf Launch Monitor Viewer");
                       (Sidebar, Selectbox "Select Lesson Folder" (name <$> lessons));
                       (MainArea, Tabs ["All Shots"; "Video Player"])] s1))
      as [l Hl].
    eexists. rewrite Hl, show_show. reflexivity.
  - rewrite (main_prefix _ _ _ _ _ _ _ Hfind Hsel). cbv zeta. rewrite Hglob.
    erewrite bind_raise; cycle 1.
    { rewrite load_data_show, Hload. reflexivity. }
    by eexists.
Qed.

Lemma main_session fs base_dir lc sc s :
  (∃ l, (main fs base_dir lc sc s).2 = show l s) ∨
  (∃ l csv, (main fs base_dir lc sc s).2 = show l (load_data fs csv s).2).
Proof.
  destruct (find_lessons fs base_dir) as [lessons|e] eqn:Hfind.
  - destruct (chosen (name <$> lessons) lc) as [lesson|] eqn:Hsel.
    + destruct (glob_csv fs (joinpath base_dir lesson)) as [|csv rest] eqn:Hglob.
      * left. rewrite (main_prefix _ _ _ _ _ _ _ Hfind Hsel). cbv zeta.
        rewrite Hglob. unfold emit. rewrite show_show. by eexists.
      * right. destruct (main_after_glob fs base_dir lc sc s _ _ _ _
                           Hfind Hsel Hglob) as [l Hl]. by exists l, csv.
    + left. unfold main. rewrite bind_emit, bind_lift, Hfind.
      erewrite bind_ok by apply sidebar_selectbox.
      rewrite Hsel, show_show, bind_lift. by eexists.
  - left. unfold main. rewrite bind_emit, bind_lift, Hfind. by eexists.
Qed.

(** ** What a run of the page keeps *)

(** Whatever the folder, the choices and the outcome, a run of [main] keeps
    every stored frame as it is, keeps what was shown and adds to it, and
    reads at most one file, one that was not in the store. *)
Theorem main_grows fs base_dir lc sc s :
  cache s ⊆ cache (main fs base_dir lc sc s).2 ∧
  out s `prefix_of` out (main fs base_dir lc sc s).2 ∧
  (reads (main fs base_dir lc sc s).2 = reads s ∨
   ∃ csv, reads (main fs base_dir lc sc s).2 = reads s ++ [csv] ∧
          cache s !! csv = None).
Proof.
  destruct (main_session fs base_dir lc sc s) as [[l ->]|(l & csv & ->)].
  - split; [done|]. split; [by exists l|by left].
  - destruct (load_data_grows fs csv s) as (Hcache & Hout & Hreads).
    cbn [show cache out reads]. split; [done|].
    split; [rewrite Hout; by exists l|].
    destruct Hreads as [[-> _]|[-> Hmiss]]; [by left|right; by exists csv].
Qed.

(** Of several exports in the lesson folder only the first in directory
    order is loaded: it is read once when it is not stored and not at all
    when it is, however the views end. *)
Theorem main_reads_first_csv fs base_dir lc sc s lessons lesson before n nd after :
  find_lessons fs base_dir = Ok lessons →
  chosen (name <$> lessons) lc = Some lesson →
  resolve fs (joinpath base_dir lesson)
  = Some (Dir (before ++ (n, nd) :: after)) →
  Forall (λ e, is_csv_name e.1 = false) before →
  is_csv_name n = true →
  let csv := child (joinpath base_dir lesson) n in
  (cache s !! csv = None →
   reads (main fs base_dir lc sc s).2 = reads s ++ [csv]) ∧
  (is_Some (cache s !! csv) →
   reads (main fs base_dir lc sc s).2 = reads s).
Proof.
  intros Hfind Hsel Hres Hbefore Hn csv.
  assert (∃ rest, glob_csv fs (joinpath base_dir lesson) = csv :: rest)
    as [rest Hglob].
  { unfold glob_csv. rewrite Hres, filter_app.
    replace (filter (λ e, is_csv_name e.1) before) with (@nil (string * node)).
    - rewrite filter_cons_True by (simpl; by rewrite Hn). by eexists.
    - symmetry. clear Hres. induction Hbefore as [|e es He _ IH]; [done|].
      rewrite filter_cons_False; [done|]. rewrite He. auto. }
  destruct (main_after_glob fs base_dir lc sc s _ _ _ _ Hfind Hsel Hglob)
    as [l ->].
  destruct (load_data_grows fs csv s) as (_ & _ & Hreads).
  cbn [show reads].
  split; intros Hc; destruct Hreads as [[Hr Hs]|[Hr Hs]]; try done.
  - rewrite Hc in Hs. by destruct Hs.
  - rewrite Hs in Hc. by destruct Hc.
Qed.

(** A rerun of the page after a run that loaded the frame [df], whatever
    the user picks next and whatever has become of the file, shows the
    views of [df] and reads nothing, as long as the same export is found
    and the store has not lost it. *)
Theorem main_rerun_cached fs base_dir lc sc s lessons lesson csv rest df
    fs' lessons' rest' sc' s' :
  find_lessons fs base_dir = Ok lessons →
  chosen (name <$> lessons) lc = Some lesson →
  glob_csv fs (joinpath base_dir lesson) = csv :: rest →
  (load_data fs csv s).1 = Ok df →
  cache (main fs base_dir lc sc s).2 ⊆ cache s' →
  find_lessons fs' base_dir = Ok lessons' →
  chosen (name <$> lessons') lc = Some lesson →
  glob_csv fs' (joinpath base_dir lesson) = csv :: rest' →
  main fs' base_dir lc sc' s'
  = (shot_table_view csv df ≫= λ _,
     shot_detail_view fs' (joinpath base_dir lesson) df sc')
      (show [(MainArea, Title "Golf Launch Monitor Viewer");
             (Sidebar, Selectbox "Select Lesson Folder" (name <$> lessons'));
             (MainArea, Tabs ["All Shots"; "Video Player"])] s') ∧
  reads (main fs' base_dir lc sc' s').2 = reads s'.
Proof.
  intros Hfind Hsel Hglob Hload Hkeep Hfind' Hsel' Hglob'.
  destruct (main_after_glob fs base_dir lc sc s _ _ _ _ Hfind Hsel Hglob)
    as [l Hl].
  rewrite Hl in Hkeep. cbn [show cache] in Hkeep.
  destruct (load_data fs csv s) as [r s1] eqn:Hfirst. simpl in Hload. subst r.
  pose proof (load_data_stored _ _ _ _ _ Hfirst) as Hstored.
  pose proof (lookup_weaken _ _ _ _ Hstored Hkeep) as Hhit.
  assert (load_data fs' csv s' = (Ok df, s')) as Hsecond.
  { unfold load_data, cache_data. by rewrite Hhit. }
  split.
  - by apply (main_loaded _ _ _ _ _ _ _ _ rest').
  - destruct (main_after_glob fs' base_dir lc sc' s' _ _ _ _
                Hfind' Hsel' Hglob') as [l' ->].
    by rewrite Hsecond.
Qed.

(** ** Where the page stops *)

(** When the folder of the script holds no lesson the side bar select box
    has no option and hands back [None]; joining it to the base directory
    raises a [TypeError] after the title and the empty selector are
    shown. *)
Theorem main_no_lessons fs base_dir lc sc s es :
  resolve fs base_dir = Some (Dir es) →
  Forall (λ e, is_dir e.2 = false ∨ e.1 = "venv" ∨ e.1 = ".venv") es →
  main fs base_dir lc sc s
  = (Raise (TypeError "unsupported operand type(s) for /"),
     show [(MainArea, Title "Golf Launch Monitor Viewer");
           (Sidebar, Selectbox "Select Lesson Folder" [])] s).
Proof.
  intros Hres Hnone.
  assert (find_lessons fs base_dir = Ok []) as Hfind.
  { rewrite (find_lessons_filter _ _ _ Hres).
    replace (filter is_lesson es) with (@nil (string * node)); [done|].
    symmetry. clear Hres. induction Hnone as [|e es He _ IH]; [done|].
    rewrite filter_cons_False; [done|]. unfold is_lesson.
    destruct He as [He|[He|He]]; rewrite He; tauto. }
  unfold main. rewrite bind_emit, bind_lift, Hfind.
  erewrite bind_ok by apply sidebar_selectbox.
  rewrite show_show, bind_lift. cbn [fmap list_fmap].
  replace (chosen (@nil string) lc) with (@None string)
    by by destruct lc.
  reflexivity.
Qed.

(** A load that fails is not stored: the session keeps its store and logs
    the read, and once the file parses the next call reads it again and
    returns and stores its frame. *)
Theorem load_data_retry fs csv s e s1 :
  load_data fs csv s = (Raise e, s1) →
  cache s1 = cache s ∧
  reads s1 = reads s ++ [csv] ∧
  ∀ fs' df,
    resolve fs' csv = Some (File (Some df)) →
    ∃ s2, load_data fs' csv s1 = (Ok df, s2) ∧
          reads s2 = reads s ++ [csv; csv] ∧
          cache s2 !! csv = Some df.
Proof.
  unfold load_data, cache_data, read_csv.
  destruct (cache s !! csv) as [d|] eqn:Hc; [done|].
  intros Hfail.
  assert (s1 = {| cache := cache s; reads := reads s ++ [csv]; out := out s |})
    as ->.
  { destruct (resolve fs csv) as [[[d|]|]|]; try done;
      by injection Hfail as _ <-. }
  split; [done|]. split; [done|]. intros fs' df Hres. cbn [cache reads out].
  rewrite Hc, Hres. eexists. split; [reflexivity|]. cbn [cache reads].
  split; [by rewrite <- app_assoc|apply lookup_insert_eq].
Qed.

(** When the first export of the lesson folder does not parse (or is a
    directory named like one), [main] raises after the lesson selector,
    before any tab, with the read logged and nothing stored. *)
Theorem main_load_fails fs base_dir lc sc s lessons lesson csv rest :
  find_lessons fs base_dir = Ok lessons →
  chosen (name <$> lessons) lc = Some lesson →
  glob_csv fs (joinpath base_dir lesson) = csv :: rest →
  cache s !! csv = None →
  (∀ df, resolve fs csv ≠ Some (File (Some df))) →
  main fs base_dir lc sc s
  = (Raise (ReadError (path_str csv)),
     {| cache := cache s;
        reads := reads s ++ [csv];
        out := out s ++ [(MainArea, Title "Golf Launch Monitor Viewer");
                         (Sidebar, Selectbox "Select Lesson Folder"
                                     (name <$> lessons))] |}).
Proof.
  intros Hfind Hsel Hglob Hmiss Hbad.
  rewrite (main_prefix _ _ _ _ _ _ _ Hfind Hsel). cbv zeta. rewrite Hglob.
  erewrite bind_raise; [reflexivity|].
  rewrite load_data_show. unfold load_data, cache_data, read_csv.
  rewrite Hmiss.
  destruct (resolve fs csv) as [[[df|]|]|]; try done. by destruct (Hbad df).
Qed.

(** When the loaded frame lacks a preview column, [main] raises a
    [KeyError] naming it in the table view: the tabs and the sub-header of
    the table are shown, the table and the whole detail view are not. *)
Theorem main_preview_column_missing fs base_dir lc sc s lessons lesson csv rest
    df s1 c :
  find_lessons fs base_dir = Ok lessons →
  chosen (name <$> lessons) lc = Some lesson →
  glob_csv fs (joinpath base_dir lesson) = csv :: rest →
  load_data fs csv s = (Ok df, s1) →
  c ∈ preview_cols → c ∉ columns df →
  ∃ missing,
    c ∈ missing ∧
    main fs base_dir lc sc s
    = (Raise (KeyError missing),
       show [(MainArea, Title "Golf Launch Monitor Viewer");
             (Sidebar, Selectbox "Select Lesson Folder" (name <$> lessons));
             (MainArea, Tabs ["All Shots"; "Video Player"]);
             (tab_all, Subheader ("All Shots: " +:+ name csv))] s1).
Proof.
  intros Hfind Hsel Hglob Hload Hc Hn.
  rewrite (main_loaded _ _ _ _ _ _ _ _ _ _ _ Hfind Hsel Hglob Hload).
  destruct (shot_table_view_missing csv df
              (show [(MainArea, Title "Golf Launch Monitor Viewer");
                     (Sidebar, Selectbox "Select Lesson Folder" (name <$> lessons));
                     (MainArea, Tabs ["All Shots"; "Video Player"])] s1)
              c Hc Hn) as (missing & Htable & Hin).
  exists missing. split; [done|].
  erewrite bind_raise by exact Htable. by rewrite show_show.
Qed.

(** ** The loop over the grid rows *)

Lemma range_from_lookup fuel start stop step k :
  0 < step → stop ≤ start + fuel * step →
  range_from fuel start stop step !! k
  = if start + k * step <? stop then Some (start + k * step) else None.
Proof.
  intros Hstep. revert start k.
  induction fuel as [|fuel IH]; intros start k Hfuel.
  - simpl. destruct (Nat.ltb_spec (start + k * step) stop); [nia|done].
  - cbn [range_from]. destruct (Nat.ltb_spec start stop) as [Hlt|Hge].
    + destruct k as [|k]; simpl.
      * rewrite Nat.add_0_r. by destruct (Nat.ltb_spec start stop); [|lia].
      * rewrite IH by lia.
        replace (start + step + k * step) with (start + (step + k * step))
          by lia. done.
    + rewrite lookup_nil.
      destruct (Nat.ltb_spec (start + k * step) stop); [nia|done].
Qed.

(** [range(0, stop, step)] for a positive step lists the multiples of
    [step] below [stop] in increasing order and nothing else: the fuel of
    the loop never runs out early. *)
Theorem range_spec stop step k :
  0 < step →
  range 0 stop step !! k
  = if k * step <? stop then Some (k * step) else None.
Proof.
  intros Hstep. unfold range.
  rewrite range_from_lookup; [done|done|nia].
Qed.

(** ** The selected row and the video *)

(** The label the select box hands back is a label of the index, so
    [df.loc] on it does not raise: it is the label at the chosen position
    when that is a row, the first label otherwise.  In a frame read without
    labels it is that position, and it stands for that row only. *)
Theorem selected_index_valid df sc i :
  shot_selected df sc i →
  i ∈ index df ∧
  is_ok (loc df (Some i)) ∧
  (sc < length (data df) → index df !! sc = Some i) ∧
  (length (data df) ≤ sc → index df !! 0 = Some i) ∧
  (row_labels df = None →
   ∃ p, i = VInt (Z.of_nat p) ∧ is_Some (data df !! p) ∧
        positions df i = [p] ∧
        (sc < length (data df) → p = sc) ∧
        (length (data df) ≤ sc → p = 0)).
Proof.
  intros Hsel.
  destruct (shot_selected_inv _ _ _ Hsel) as (_ & row & _ & _ & Hch & Hrow).
  pose proof (chosen_elem_of _ _ _ Hch) as Hin.
  assert ((sc < length (data df) → index df !! sc = Some i) ∧
          (length (data df) ≤ sc → index df !! 0 = Some i)) as [Hlt Hge].
  { unfold chosen in Hch. split; intros Hsc.
    - destruct (index df !! sc) as [x|] eqn:Hx; [congruence|].
      apply lookup_ge_None in Hx. rewrite index_length in Hx. lia.
    - rewrite lookup_ge_None_2 in Hch by (rewrite index_length; lia).
      by rewrite <- head_lookup. }
  split; [done|]. split; [by rewrite Hrow|]. split; [done|]. split; [done|].
  intros Hnone.
  assert (∀ p, index df !! p = Some i →
               i = VInt (Z.of_nat p) ∧ is_Some (data df !! p) ∧
               positions df i = [p]) as Hat.
  { intros p Hp. pose proof (index_default _ _ _ Hnone Hp) as ->.
    pose proof (index_lookup_lt _ _ _ Hp) as Hlen.
    split; [done|]. split; [by apply lookup_lt_is_Some_2|].
    by apply positions_default. }
  destruct (decide (sc < length (data df))) as [Hsc|Hsc].
  - destruct (Hat sc (Hlt Hsc)) as (-> & Hrow' & Hpos).
    exists sc. split; [done|]. split; [done|]. split; [done|]. split; [done|lia].
  - destruct (Hat 0) as (-> & Hrow' & Hpos); [apply Hge; lia|].
    exists 0. split; [done|]. split; [done|]. split; [done|]. split; [lia|done].
Qed.

(** On a frame without rows the select box has no option and hands back
    [None], and [df.loc[None]] raises a [KeyError] after the empty selector
    is shown, whatever columns the frame has. *)
Theorem detail_view_empty_table fs lesson_dir df sc s :
  data df = [] →
  shot_detail_view fs lesson_dir df sc s
  = (Raise (KeyError ["None"]),
     show [(tab_video, Subheader "Select a Shot to Play Video");
           (tab_video, Selectbox "Choose shot by index:" [])] s).
Proof.
  intros Hdata. unfold shot_detail_view, st_selectbox, index.
  rewrite Hdata. cbn [imap mapM]. rewrite bind_emit.
  erewrite bind_ok; cycle 1.
  { rewrite bind_lift. cbn [mret result_ret]. rewrite bind_emit. reflexivity. }
  replace (chosen (@nil value) sc) with (@None value) by by destruct sc.
  by rewrite bind_lift, show_show.
Qed.

(** On every frame and every choice the detail view shows the player or
    the not-found message exactly when it returns normally, then as its
    last element and only once; when it raises it shows neither. *)
Theorem detail_view_playback fs lesson_dir df sc s :
  ∃ res l,
    shot_detail_view fs lesson_dir df sc s = (res, show l s) ∧
    (is_ok res = true →
     ∃ before e, l = before ++ [(tab_video, e)] ∧ is_playback e = true ∧
                 Forall (λ ce, is_playback ce.2 = false) before) ∧
    (is_ok res = false → Forall (λ ce, is_playback ce.2 = false) l).
Proof.
  destruct (mapM (format_shot df) (index df)) as [labels|e] eqn:Hl.
  - destruct (chosen (index df) sc) as [i|] eqn:Hch.
    + pose proof (shot_selected_intro _ _ _ _ Hl Hch) as Hsel.
      destruct (shot_selected_inv _ _ _ Hsel) as (_ & row & _ & _ & _ & Hrow).
      destruct (shot_detail_view_shows fs lesson_dir df sc s i row Hsel Hrow)
        as (labels' & _ & ->).
      assert (Forall (λ ce : container * element, is_playback ce.2 = false)
                (detail_head labels'
                 ++ concat (grid_row <$> chunks n_cols (build_metrics i row))))
        as Hquiet.
      { apply Forall_app. split; [by repeat constructor|apply grid_no_playback]. }
      destruct (video_outcome_shape fs lesson_dir row)
        as [(e & -> & He)|(e & ->)]; cbn [fst snd].
      * eexists _, _. split; [reflexivity|]. split; [|done]. intros _.
        eexists _, e. split; [by rewrite app_assoc|]. done.
      * eexists _, _. split; [reflexivity|]. split; [done|]. intros _.
        by rewrite app_nil_r.
    + unfold shot_detail_view, st_selectbox.
      rewrite bind_emit.
      erewrite bind_ok; cycle 1.
      { rewrite bind_lift, Hl, bind_emit. reflexivity. }
      rewrite Hch, bind_lift, show_show. cbn [loc].
      eexists _, _. split; [reflexivity|]. split; [done|]. intros _.
      by repeat constructor.
  - unfold shot_detail_view, st_selectbox.
    rewrite bind_emit.
    erewrite bind_raise; cycle 1.
    { rewrite bind_lift, Hl. reflexivity. }
    eexists _, _. split; [reflexivity|]. split; [done|]. intros _.
    by repeat constructor.
Qed.

(** When the table is shown, the selected label stands for one row, the
    Radar Video cell of that row is the text [f], not starting with a
    double slash, and [lesson_dir / f] is a file, [main] returns normally
    and ends the page with the player on the text of that path, after the
    title, the lesson selector, the tabs, the table view, the shot selector
    and the metrics grid; it shows no error message. *)
Theorem main_video_found fs base_dir lc sc s lessons lesson csv rest df s1
    i p r k f x :
  find_lessons fs base_dir = Ok lessons →
  chosen (name <$> lessons) lc = Some lesson →
  glob_csv fs (joinpath base_dir lesson) = csv :: rest →
  load_data fs csv s = (Ok df, s1) →
  wf_frame df →
  preview_cols ⊆ columns df →
  Forall fits_int64 (index df) →
  (∀ c, c ∈ preview_cols → Forall fits_int64 (column_cells df c)) →
  chosen (index df) sc = Some i →
  positions df i = [p] →
  data df !! p = Some r →
  columns df !! k = Some "Radar Video" →
  r !! k = Some (VStr f) →
  double_root f = false →
  exists_ fs (joinpath (joinpath base_dir lesson) f) = Ok true →
  resolve fs (joinpath (joinpath base_dir lesson) f) = Some (File x) →
  ∃ view labels,
    main fs base_dir lc sc s
    = (Ok tt,
       show ([(MainArea, Title "Golf Launch Monitor Viewer");
              (Sidebar, Selectbox "Select Lesson Folder" (name <$> lessons));
              (MainArea, Tabs ["All Shots"; "Video Player"]);
              (tab_all, Subheader ("All Shots: " +:+ name csv));
              (tab_all, Dataframe view)]
             ++ detail_head labels
             ++ concat (grid_row <$> chunks n_cols
                          (build_metrics i (zip (columns df) r)))
             ++ [(tab_video,
                  Video (path_str (joinpath (joinpath base_dir lesson) f)))])
         s1) ∧
    columns view = preview_cols ∧
    length (data view) = length (data df) ∧
    index view = index df ∧
    length labels = length (data df).
Proof.
  intros Hfind Hsel Hglob Hload Hwf Hsub Hindex Hfit Hch Hpos Hr Hk Hf _
    Hyes Hfile.
  destruct (main_row_selected fs base_dir lc sc s lessons lesson csv rest df s1
              i p r k f) as (Hcell & view & labels & Hrun & Hview);
    try done.
  exists view, labels. split; [|exact Hview].
  by rewrite Hrun, (video_outcome_found _ _ _ _ _ Hcell Hyes Hfile).
Qed.

(** ** Telling the shots apart *)

Lemma digit_no_colon (x : N) : Ascii.eqb (pretty_N_char x) ":"%char = false.
Proof. unfold pretty_N_char. by repeat case_match. Qed.

Lemma pretty_N_go_colon (x : N) (s : string) :
  has_colon (pretty_N_go x s) = has_colon s.
Proof.
  revert s. induction (N.lt_wf_0 x) as [x _ IH]. intros s.
  destruct (decide (0 < x)%N) as [Hpos|Hzero].
  - rewrite pretty_N_go_step by done.
    rewrite IH by by apply N.div_lt.
    simpl. by rewrite digit_no_colon.
  - assert (x = 0%N) as -> by lia. by rewrite pretty_N_go_0.
Qed.

Lemma pretty_nat_colon (n : nat) : has_colon (pretty n) = false.
Proof.
  unfold pretty, pretty_nat, pretty, pretty_N.
  destruct (decide (N.of_nat n = 0%N)); [done|]. by rewrite pretty_N_go_colon.
Qed.

Lemma colon_split (a b x y : string) :
  has_colon a = false → has_colon b = false →
  a +:+ String ":"%char x = b +:+ String ":"%char y → a = b.
Proof.
  revert b. induction a as [|c a IH]; intros b Ha Hb Heq.
  - destruct b as [|d b]; [done|]. rewrite app_cons_string in Heq.
    injection Heq as Hd _. subst d. by simpl in Hb.
  - destruct b as [|d b]; rewrite ?app_cons_string in Heq.
    + injection Heq as Hc _. subst c. by simpl in Ha.
    + injection Heq as Hcd Heq. subst d. simpl in Ha, Hb.
      apply orb_false_elim in Ha as [_ Ha]. apply orb_false_elim in Hb as [_ Hb].
      f_equal. by apply IH.
Qed.

Lemma format_shot_head df idx label :
  format_shot df idx = Ok label →
  ∃ rest, label = str idx +:+ String ":"%char rest.
Proof.
  unfold format_shot, getitem.
  destruct (loc df (Some idx)) as [row|]; simpl; [|done].
  destruct (assoc "Club" _); simpl; [|done].
  destruct (assoc "Shot Type" _); simpl; [|done].
  destruct (assoc "Carry [yds]" _); simpl; [|done].
  intros [= <-]. by eexists.
Qed.

(** In a frame read without labels the labels of the shot selector are
    pairwise distinct, even for shots of the same club, type and carry:
    each starts with its own position. *)
Theorem shot_labels_distinct df labels :
  row_labels df = None →
  mapM (format_shot df) (index df) = Ok labels →
  NoDup labels ∧
  ∀ i j l, format_shot df (VInt (Z.of_nat i)) = Ok l →
           format_shot df (VInt (Z.of_nat j)) = Ok l → i = j.
Proof.
  intros Hnone Hl.
  assert (∀ i j l, format_shot df (VInt (Z.of_nat i)) = Ok l →
                   format_shot df (VInt (Z.of_nat j)) = Ok l → i = j)
    as Hinj.
  { intros i j l Hi Hj.
    destruct (format_shot_head _ _ _ Hi) as [x ->].
    destruct (format_shot_head _ _ _ Hj) as [y Heq].
    rewrite !str_position in Heq.
    apply colon_split in Heq; [|apply pretty_nat_colon..].
    by apply (inj pretty). }
  split; [|exact Hinj].
  apply NoDup_alt. intros i j l Hi Hj.
  pose proof (mapM_result_length _ _ _ Hl) as Hlen.
  rewrite index_length in Hlen.
  assert (∀ k, k < length (data df) → index df !! k = Some (VInt (Z.of_nat k)))
    as Hat.
  { intros k Hk. rewrite (index_lookup _ _ Hk). unfold label_at.
    by rewrite Hnone. }
  pose proof (Hat i ltac:(rewrite <- Hlen; by eapply lookup_lt_Some)) as Hsi.
  pose proof (Hat j ltac:(rewrite <- Hlen; by eapply lookup_lt_Some)) as Hsj.
  destruct (mapM_result_lookup _ _ _ _ _ Hl Hsi) as (li & Hfi & Hli).
  destruct (mapM_result_lookup _ _ _ _ _ Hl Hsj) as (lj & Hfj & Hlj).
  apply (Hinj i j l); congruence.
Qed.

End Page.

(** * Sample runs

    The statements above at concrete worlds.  Where the page prints a
    column of several rows, the runs use [sample_series_text]. *)

Lemma find_lessons_spec_witness :
  (∃ kept,
     find_lessons fs0 ["app"] = Ok ((λ e, child ["app"] e.1) <$> kept) ∧
     kept `sublist_of`
       [("LessonA", Dir [("notes.txt", File None); ("shots.csv", File (Some df0));
                         ("v1.mp4", File None)]);
        ("venv", Dir []); ("View_FS_Golf_Lesson.py", File None);
        ("LessonB", Dir [])]) ∧
  find_lessons
    (Dir [("LessonA", Dir []); ("venv", Dir []); ("LessonB", Dir [])]) []
  = Ok [["LessonA"]; ["LessonB"]].
Proof.
  split.
  - destruct (proj1 find_lessons_spec fs0 ["app"] _ eq_refl)
      as (kept & Hfind & Hsub & _).
    exists kept. split; assumption.
  - apply (proj2 find_lessons_spec _ [] [] [] []). reflexivity.
Defined.

Lemma main_no_csv_witness :
  main sample_series_text fs0 ["app"] 1 0 session0
  = (Ok tt,
     show [(MainArea, Title "Golf Launch Monitor Viewer");
           (Sidebar, Selectbox "Select Lesson Folder" ["LessonA"; "LessonB"]);
           (MainArea, Error "No CSV file found in /app/LessonB")] session0).
Proof.
  apply (main_no_csv sample_series_text fs0 ["app"] 1 0 session0
           [["app"; "LessonA"]; ["app"; "LessonB"]] "LessonB" []);
    [reflexivity | reflexivity | reflexivity | constructor].
Defined.

Lemma load_data_cached_witness :
  let s1 := (load_data fs0 shots_csv session0).2 in
  reads s1 = [shots_csv] ∧
  load_data (Dir []) shots_csv s1 = (Ok df0, s1) ∧
  reads (load_data (Dir []) shots_csv s1).2 = reads s1.
Proof.
  intros s1. split; [reflexivity|].
  apply (load_data_cached fs0 (Dir []) shots_csv session0 df0 s1 s1);
    [reflexivity | reflexivity].
Defined.

Lemma shot_table_view_spec_witness :
  ∃ view,
    shot_table_view shots_csv df0 session0
    = (Ok tt, show [(tab_all, Subheader "All Shots: shots.csv");
                    (tab_all, Dataframe view)] session0) ∧
    length (data view) = 2 ∧
    index view = [VInt 0; VInt 1] ∧
    ∃ r' v, data view !! 1 = Some r' ∧ length r' = 7 ∧
            r' !! 6 = Some v ∧ second_shot !! 6 = Some v.
Proof.
  destruct (shot_table_view_spec shots_csv df0 session0)
    as (view & Hrun & _ & Hrows & Hindex & Hcell).
  - exact wf_df0.
  - by_decide.
  - by_decide.
  - by_columns.
  - exists view. split; [exact Hrun|]. split; [exact Hrows|].
    split; [exact Hindex|].
    apply (Hcell 1 second_shot 6 "Radar Video" 6); reflexivity.
Defined.

Lemma format_shot_spec_witness :
  (format_shot sample_series_text df0 (VInt 1)
   = Ok "1: PW | Fade | Carry 110.0 yd" ∧
   ∀ labels,
     mapM (format_shot sample_series_text df0) (index df0) = Ok labels →
     labels !! 1 = Some "1: PW | Fade | Carry 110.0 yd") ∧
  (format_shot sample_series_text df_codes (VInt 0)
   = Ok "0: 7.0 | 3.0 | Carry 150.0 yd" ∧
   ∀ labels,
     mapM (format_shot sample_series_text df_codes) (index df_codes)
     = Ok labels →
     labels !! 0 = Some "0: 7.0 | 3.0 | Carry 150.0 yd") ∧
  (format_shot sample_series_text df_players (VStr "Bob")
   = Ok "Bob: PW | Fade | Carry 110 yd" ∧
   ∀ labels,
     mapM (format_shot sample_series_text df_players) (index df_players)
     = Ok labels →
     labels !! 1 = Some "Bob: PW | Fade | Carry 110 yd") ∧
  format_shot sample_series_text df_players (VStr "Ann")
  = Ok ("Ann: "
        +:+ sample_series_text Object "Club" [VStr "Ann"; VStr "Ann"]
              [VStr "7i"; VStr "7i"]
        +:+ " | "
        +:+ sample_series_text Object "Shot Type" [VStr "Ann"; VStr "Ann"]
              [VStr "Draw"; VStr "Draw"]
        +:+ " | Carry "
        +:+ sample_series_text Int64 "Carry [yds]" [VStr "Ann"; VStr "Ann"]
              [VInt 150; VInt 160]
        +:+ " yd").
Proof.
  destruct (format_shot_spec sample_series_text) as [Hone Hseveral].
  split; [|split; [|split]].
  - apply (Hone df0 (VInt 1) 1 second_shot 2 4 5
             (VStr "PW") (VStr "Fade") (VFloat "110.0"));
      [exact wf_df0 | reflexivity..].
  - apply (Hone df_codes (VInt 0) 0 [VInt 7; VInt 3; VInt 150; VFloat "1.33"]
             0 1 2 (VInt 7) (VInt 3) (VInt 150));
      [|reflexivity..].
    by_decide.
  - apply (Hone df_players (VStr "Bob") 1
             [VStr "Bob Ray"; VStr "10:02"; VStr "PW"; VFloat "70.1";
              VStr "Fade"; VInt 110; VStr "b1.mp4"]
             2 4 5 (VStr "PW") (VStr "Fade") (VInt 110));
      [|reflexivity..].
    by_decide.
  - apply (Hseveral df_players (VStr "Ann") 0 2 []);
      [reflexivity|by_decide..].
Defined.

(** A label that stands for two rows gives one text for both.  In
    [df_players] the first and the third shot are labelled Ann and differ
    in their carry, 150 and 160; the select box shows the same label at
    both positions, which is the format filled in with the values of
    neither row. *)
Lemma repeated_label_one_text :
  index df_players !! 0 = Some (VStr "Ann") ∧
  index df_players !! 2 = Some (VStr "Ann") ∧
  column_cells df_players "Carry [yds]" = [VInt 150; VInt 110; VInt 160] ∧
  ∃ labels l,
    mapM (format_shot sample_series_text df_players) (index df_players)
    = Ok labels ∧
    labels !! 0 = Some l ∧ labels !! 2 = Some l ∧
    l ≠ "Ann: 7i | Draw | Carry 150 yd" ∧
    l ≠ "Ann: 7i | Draw | Carry 160 yd".
Proof.
  split; [reflexivity|]. split; [reflexivity|]. split; [reflexivity|].
  eexists _, _. split; [vm_compute; reflexivity|].
  split; [reflexivity|]. split; [reflexivity|]. split; by_decide.
Qed.

Lemma shot_detail_view_row_witness :
  length (data df10) = 10 ∧
  ∃ labels items res tail,
    shot_detail_view sample_series_text fs0 lessonA df10 3 session0
    = (res, show (detail_head labels
                  ++ concat (grid_row <$> chunks n_cols items) ++ tail)
              session0) ∧
    items !! 0 = Some ("Index", VInt 3) ∧
    (∃ j, (tab_video,
           ColumnMarkdown j
             "<div style='text-align:center;'><div style='font-size:0.8rem;color:#666;'>Index</div><div style='font-size:1rem;font-weight:bold;'>3</div></div>"
             true)
          ∈ concat (grid_row <$> chunks n_cols items)) ∧
    (∃ j, (tab_video,
           ColumnMarkdown j
             "<div style='text-align:center;'><div style='font-size:0.8rem;color:#666;'>Carry [yds]</div><div style='font-size:1rem;font-weight:bold;'>153</div></div>"
             true)
          ∈ concat (grid_row <$> chunks n_cols items)).
Proof.
  split; [reflexivity|].
  destruct (shot_detail_view_row sample_series_text fs0 lessonA df10 3 session0
              (VInt 3) 3 (shot10 3))
    as (labels & items & res & tail & Hrun & _ & _ & Hitems & Hindex & Hpos
        & _ & Hshown).
  - reflexivity.
  - reflexivity.
  - reflexivity.
  - exists labels, items, res, tail. split; [exact Hrun|].
    split; [exact Hindex|]. split.
    + apply (Hpos eq_refl).
    + apply (Hshown "Carry [yds]" (VInt 153)). rewrite Hitems. by_decide.
Defined.

Lemma metrics_grid_spec_witness :
  ∃ labels row1 row2 res tail,
    shot_detail_view sample_series_text fs0 lessonA df0 1 session0
    = (res, show (detail_head labels ++ grid_row row1 ++ grid_row row2
                  ++ tail) session0) ∧
    length row1 = 8 ∧ length row2 = 5.
Proof.
  destruct (proj2 (metrics_grid_spec sample_series_text)
              fs0 lessonA df0 1 session0 (VInt 1))
    as (labels & row1 & row2 & res & tail & Hrun & _ & _ & Hlen1 & Hlen2).
  - reflexivity.
  - exists labels, row1, row2, res, tail. by split.
Defined.



Lemma selector_unguarded_witness :
  (∃ l, format_shot sample_series_text df_noclub (VInt 0)
        = Raise (KeyError l)) ∧
  (∃ l shown,
     shot_detail_view sample_series_text fs0 lessonA df_noclub 0 session0
     = (Raise (KeyError l), show shown session0) ∧
     shown = [(tab_video, Subheader "Select a Shot to Play Video")]) ∧
  ("Smash", VStr "N/A")
  ∈ build_metrics (VInt 1) (zip (columns df0) second_shot).
Proof.
  destruct (selector_unguarded sample_series_text) as (Hfmt & Hview & Hget).
  split; [|split].
  - apply (Hfmt df_noclub (VInt 0) "Club"); by_decide.
  - destruct (Hview fs0 lessonA df_noclub 0 session0 "Club")
      as (l & shown & Hrun & _ & Hshown); [by_decide..|].
    exists l, shown. split; [exact Hrun|]. by apply Hshown.
  - apply Hget; [by_decide|done|reflexivity].
Defined.



(** A label that stands for two rows shows both.  In [df_players] the
    first and the third shot are labelled Ann; with the third chosen the
    select box hands back Ann, and the cell of the carry shows the column
    of the carries of both shots, 150 and 160, not the 160 of the chosen
    one. *)
Lemma repeated_label_two_rows :
  index df_players = [VStr "Ann"; VStr "Bob"; VStr "Ann"] ∧
  shot_selected sample_series_text df_players 2 (VStr "Ann") ∧
  ∃ labels items res tail,
    shot_detail_view sample_series_text fs0 lessonA df_players 2 session0
    = (res, show (detail_head labels
                  ++ concat (grid_row <$> chunks n_cols items) ++ tail)
              session0) ∧
    items !! 1
    = Some ("Carry [yds]",
            VColumn Int64
              (sample_series_text Int64 "Carry [yds]" [VStr "Ann"; VStr "Ann"]
                 [VInt 150; VInt 160])) ∧
    (tab_video,
     ColumnMarkdown 1
       "<div style='text-align:center;'><div style='font-size:0.8rem;color:#666;'>Carry [yds]</div><div style='font-size:1rem;font-weight:bold;'>Ann    150; Ann    160; Name: Carry [yds]</div></div>"
       true)
    ∈ concat (grid_row <$> chunks n_cols items).
Proof.
  split; [reflexivity|]. split; [reflexivity|].
  destruct (shot_selected_inv sample_series_text df_players 2 (VStr "Ann")
              eq_refl) as (_ & row & _ & _ & _ & Hrow).
  destruct (shot_detail_view_shows sample_series_text fs0 lessonA df_players 2
              session0 (VStr "Ann") row eq_refl Hrow)
    as (labels & _ & Hrun).
  eexists labels, _, _, _. split; [exact Hrun|].
  injection Hrow as <-. split; [reflexivity|].
  apply (list_elem_of_lookup_2 _ 2). reflexivity.
Qed.

Lemma glob_csv_spec_witness :
  (∃ kept,
     glob_csv fs2 ["app"; "Lesson1"]
     = (λ e, child ["app"; "Lesson1"] e.1) <$> kept ∧
     (∀ e : string * node,
        e ∈ kept ↔
        e ∈ [("readme.md", File None); ("b.csv", File (Some df0));
             ("a.csv", File (Some df10)); ("v1.mp4", File None)] ∧
        ∃ stem, e.1 = stem +:+ ".csv")) ∧
  glob_csv fs2 ["app"; "Lesson1"]
  = [["app"; "Lesson1"; "b.csv"]; ["app"; "Lesson1"; "a.csv"]] ∧
  glob_csv fs2 script = [].
Proof.
  split; [|split].
  - destruct (proj1 glob_csv_spec fs2 ["app"; "Lesson1"] _ eq_refl)
      as (kept & Hglob & _ & Hin & _).
    exists kept. split; [exact Hglob | exact Hin].
  - reflexivity.
  - apply (proj2 glob_csv_spec fs2 script). intros es. discriminate.
Defined.

Lemma path_str_round_trip_witness :
  parts (path_str ["app"; "LessonA"; "v1.mp4"]) = ["app"; "LessonA"; "v1.mp4"] ∧
  is_absolute (path_str ["app"; "LessonA"; "v1.mp4"]) = true ∧
  joinpath ["elsewhere"] (path_str ["app"; "LessonA"; "v1.mp4"])
  = ["app"; "LessonA"; "v1.mp4"].
Proof.
  apply (path_str_round_trip ["app"; "LessonA"; "v1.mp4"] ["elsewhere"]).
  repeat constructor; done.
Defined.

Lemma lessons_are_directories_witness :
  ∃ lessons,
    find_lessons fs0 ["app"] = Ok lessons ∧
    ∀ l, l ∈ lessons →
         joinpath ["app"] (name l) = l ∧
         path_exists fs0 l = true ∧
         ∃ sub, resolve fs0 l = Some (Dir sub) ∧
                (name l, Dir sub)
                ∈ [("LessonA", Dir [("notes.txt", File None);
                                    ("shots.csv", File (Some df0));
                                    ("v1.mp4", File None)]);
                   ("venv", Dir []); ("View_FS_Golf_Lesson.py", File None);
                   ("LessonB", Dir [])].
Proof.
  apply (lessons_are_directories fs0 ["app"]); [reflexivity|by_decide|].
  repeat constructor; done.
Defined.

Lemma script_folder_listed_witness :
  ∃ es lessons,
    resolve fs0 (get_base_dir ["app"; "View_FS_Golf_Lesson.py"]) = Some (Dir es) ∧
    child (get_base_dir ["app"; "View_FS_Golf_Lesson.py"])
      "View_FS_Golf_Lesson.py" = ["app"; "View_FS_Golf_Lesson.py"] ∧
    find_lessons fs0 (get_base_dir ["app"; "View_FS_Golf_Lesson.py"])
    = Ok lessons ∧
    (NoDup es.*1 → ["app"; "View_FS_Golf_Lesson.py"] ∉ lessons).
Proof.
  apply (script_folder_listed fs0 ["app"; "View_FS_Golf_Lesson.py"]
           "View_FS_Golf_Lesson.py" None); [reflexivity|reflexivity|done].
Defined.

Lemma main_reads_first_csv_witness :
  reads (main sample_series_text fs2 ["app"] 0 0 session0).2
  = [["app"; "Lesson1"; "b.csv"]].
Proof.
  destruct (main_reads_first_csv sample_series_text fs2 ["app"] 0 0 session0
              [["app"; "Lesson1"]; ["app"; "Broken"]] "Lesson1"
              [("readme.md", File None)] "b.csv" (File (Some df0))
              [("a.csv", File (Some df10)); ("v1.mp4", File None)])
    as [Hmiss _];
    [reflexivity|reflexivity|reflexivity|by repeat constructor|reflexivity|].
  apply Hmiss. reflexivity.
Defined.

Lemma main_rerun_cached_witness :
  let s1 := (main sample_series_text fs0 ["app"] 0 0 session0).2 in
  reads s1 = [shots_csv] ∧
  reads (main sample_series_text
           (Dir [("app", Dir [("LessonA", Dir [("shots.csv", File None)])])])
           ["app"] 0 1 s1).2 = reads s1.
Proof.
  intros s1. split; [reflexivity|].
  apply (main_rerun_cached sample_series_text fs0 ["app"] 0 0 session0
           [lessonA; ["app"; "LessonB"]] "LessonA" shots_csv [] df0
           (Dir [("app", Dir [("LessonA", Dir [("shots.csv", File None)])])])
           [lessonA] [] 1 s1);
    reflexivity.
Defined.

Lemma main_no_lessons_witness :
  main sample_series_text (Dir [("venv", Dir []); ("app.py", File None)]) []
    0 0 session0
  = (Raise (TypeError "unsupported operand type(s) for /"),
     show [(MainArea, Title "Golf Launch Monitor Viewer");
           (Sidebar, Selectbox "Select Lesson Folder" [])] session0).
Proof.
  apply (main_no_lessons sample_series_text _ [] 0 0 session0
           [("venv", Dir []); ("app.py", File None)]); [reflexivity|].
  constructor; [by right; left|]. constructor; [by left|]. constructor.
Defined.

Lemma load_data_retry_witness :
  let broken := ["app"; "Broken"; "shots.csv"] in
  let s1 := (load_data fs2 broken session0).2 in
  cache s1 = ∅ ∧
  reads s1 = [broken] ∧
  ∀ fs' df,
    resolve fs' broken = Some (File (Some df)) →
    ∃ s2, load_data fs' broken s1 = (Ok df, s2) ∧
          reads s2 = [broken; broken] ∧
          cache s2 !! broken = Some df.
Proof.
  intros broken s1.
  apply (load_data_retry fs2 broken session0
           (ReadError "/app/Broken/shots.csv") s1).
  reflexivity.
Defined.

Lemma main_load_fails_witness :
  main sample_series_text fs2 ["app"] 1 0 session0
  = (Raise (ReadError "/app/Broken/shots.csv"),
     {| cache := ∅;
        reads := [["app"; "Broken"; "shots.csv"]];
        out := [(MainArea, Title "Golf Launch Monitor Viewer");
                (Sidebar, Selectbox "Select Lesson Folder"
                            ["Lesson1"; "Broken"])] |}).
Proof.
  apply (main_load_fails sample_series_text fs2 ["app"] 1 0 session0
           [["app"; "Lesson1"]; ["app"; "Broken"]] "Broken"
           ["app"; "Broken"; "shots.csv"] []);
    [reflexivity|reflexivity|reflexivity|reflexivity|].
  intros df. discriminate.
Defined.

Lemma main_preview_column_missing_witness :
  ∃ missing,
    "Club" ∈ missing ∧
    main sample_series_text
      (Dir [("L", Dir [("s.csv", File (Some df_noclub))])]) [] 0 0 session0
    = (Raise (KeyError missing),
       show [(MainArea, Title "Golf Launch Monitor Viewer");
             (Sidebar, Selectbox "Select Lesson Folder" ["L"]);
             (MainArea, Tabs ["All Shots"; "Video Player"]);
             (tab_all, Subheader "All Shots: s.csv")]
         (load_data (Dir [("L", Dir [("s.csv", File (Some df_noclub))])])
            ["L"; "s.csv"] session0).2).
Proof.
  apply (main_preview_column_missing sample_series_text
           (Dir [("L", Dir [("s.csv", File (Some df_noclub))])]) [] 0 0 session0
           [["L"]] "L" ["L"; "s.csv"] [] df_noclub);
    [reflexivity|reflexivity|reflexivity|reflexivity|by_decide|by_decide].
Defined.

Lemma range_spec_witness :
  range 0 13 n_cols !! 1 = Some 8 ∧ range 0 13 n_cols !! 2 = None.
Proof.
  split.
  - apply (range_spec 13 n_cols 1). unfold n_cols. lia.
  - apply (range_spec 13 n_cols 2). unfold n_cols. lia.
Defined.

Lemma selected_index_valid_witness :
  (VInt 3 ∈ index df10 ∧
   is_ok (loc sample_series_text df10 (Some (VInt 3))) ∧
   index df10 !! 3 = Some (VInt 3)) ∧
  (VStr "Ann" ∈ index df_players ∧
   is_ok (loc sample_series_text df_players (Some (VStr "Ann"))) ∧
   index df_players !! 0 = Some (VStr "Ann")).
Proof.
  split.
  - destruct (selected_index_valid sample_series_text df10 3 (VInt 3))
      as (Hin & Hloc & Hlt & _); [reflexivity|].
    split; [exact Hin|]. split; [exact Hloc|]. apply Hlt. simpl. lia.
  - destruct (selected_index_valid sample_series_text df_players 42 (VStr "Ann"))
      as (Hin & Hloc & _ & Hge & _); [reflexivity|].
    split; [exact Hin|]. split; [exact Hloc|]. apply Hge. simpl. lia.
Defined.

Lemma detail_view_empty_table_witness :
  shot_detail_view sample_series_text fs0 lessonA
    {| columns := columns df0; row_labels := None; data := [] |} 0 session0
  = (Raise (KeyError ["None"]),
     show [(tab_video, Subheader "Select a Shot to Play Video");
           (tab_video, Selectbox "Choose shot by index:" [])] session0).
Proof. apply detail_view_empty_table. reflexivity. Defined.

Lemma main_video_found_witness :
  ∃ view labels,
    main sample_series_text fs0 ["app"] 0 0 session0
    = (Ok tt,
       show ([(MainArea, Title "Golf Launch Monitor Viewer");
              (Sidebar, Selectbox "Select Lesson Folder" ["LessonA"; "LessonB"]);
              (MainArea, Tabs ["All Shots"; "Video Player"]);
              (tab_all, Subheader "All Shots: shots.csv");
              (tab_all, Dataframe view)]
             ++ detail_head labels
             ++ concat (grid_row <$> chunks n_cols
                          (build_metrics (VInt 0)
                             (zip (columns df0)
                                [VStr "Ann"; VStr "10:01"; VStr "7i";
                                 VFloat "78.2"; VStr "Draw"; VFloat "151.3";
                                 VStr "v1.mp4"; VInt 1; VFloat "160.0"])))
             ++ [(tab_video, Video "/app/LessonA/v1.mp4")])
         (load_data fs0 shots_csv session0).2) ∧
    length labels = 2.
Proof.
  destruct (main_video_found sample_series_text fs0 ["app"] 0 0 session0
              [lessonA; ["app"; "LessonB"]] "LessonA" shots_csv [] df0
              (load_data fs0 shots_csv session0).2
              (VInt 0) 0
              [VStr "Ann"; VStr "10:01"; VStr "7i"; VFloat "78.2";
               VStr "Draw"; VFloat "151.3"; VStr "v1.mp4"; VInt 1;
               VFloat "160.0"] 6 "v1.mp4" None)
    as (view & labels & Hrun & _ & _ & _ & Hlen);
    [reflexivity|reflexivity|reflexivity|reflexivity|exact wf_df0|by_decide
    |by_decide|by_columns|reflexivity|reflexivity|reflexivity|reflexivity
    |reflexivity|reflexivity|reflexivity|reflexivity|].
  exists view, labels. split; [exact Hrun | exact Hlen].
Defined.

Lemma shot_labels_distinct_witness :
  NoDup ["0: 7i | Draw | Carry 151.3 yd"; "1: PW | Fade | Carry 110.0 yd"] ∧
  ∀ i j l,
    format_shot sample_series_text df0 (VInt (Z.of_nat i)) = Ok l →
    format_shot sample_series_text df0 (VInt (Z.of_nat j)) = Ok l → i = j.
Proof.
  apply (shot_labels_distinct sample_series_text df0
           ["0: 7i | Draw | Carry 151.3 yd"; "1: PW | Fade | Carry 110.0 yd"]);
    reflexivity.
Defined.
